(** * OCR relay service: the response normaliser and the request handler

    A shallow embedding of [services/ocr/app/http_server.py].

    The provider's answer is whatever [response.json()] returns, a
    dynamically typed Python value, so the embedding starts with the
    fragment of Python's object model the service exercises: the JSON
    value types, [dict.get], truthiness, [+], [-], the ordering used by
    [min]/[max], iteration, and exceptions with [try]/[except].

    Numbers.  A Python [int] is a [Z].  A Python [float] is a finite
    double, held as the rational it denotes ([Q]); infinities and NaN
    have no value in the model.  An [int] that meets a [float] in [+],
    [-] or [+=] is converted as Python converts it: rounded to the
    nearest double, ties to even, with [OverflowError] beyond the range
    of a double.  Arithmetic between two floats is taken exact: its
    rounding is not modelled.  Text is a byte string holding the UTF-8
    encoding of the Python string. *)

From Stdlib Require Import ZArith QArith List String Ascii Bool Lia Lqa.
From Stdlib Require Import DecimalString.
Import ListNotations.

Set Warnings "-register-all".

Local Open Scope string_scope.
Local Open Scope Q_scope.

(** ** Exceptions *)

(** The exception classes [process_ocr_api] tells apart, each with what
    its handlers read from it.  [Exception_ msg] is any other subclass
    of [Exception]; [message] is the text [str(e)] gives. *)
Inductive exn : Type :=
| TimeoutException (message : string)
| HTTPStatusError (status_code : Z) (message : string)
| Exception_ (message : string).

Definition str (e : exn) : string :=
  match e with
  | TimeoutException m => m
  | HTTPStatusError _ m => m
  | Exception_ m => m
  end.

(** A computation returns a value or raises. *)
Inductive result (A : Type) : Type :=
| Ok (a : A)
| Raise (e : exn).
Arguments Ok {A} a.
Arguments Raise {A} e.

Definition bind {A B : Type} (m : result A) (k : A -> result B) : result B :=
  match m with
  | Ok a => k a
  | Raise e => Raise e
  end.

Notation "'let*' p ':=' m 'in' k" :=
  (bind m (fun p => k))
  (at level 10, p pattern, m at level 100, k at level 200).

(** [try: body / except ...: handler]; the handler picks the clause by
    the exception's class. *)
Definition try_ {A : Type} (body : result A) (handler : exn -> result A)
  : result A :=
  match body with
  | Ok a => Ok a
  | Raise e => handler e
  end.

(** ** Python values *)

Module Py.

Inductive pyval : Type :=
| PyNone
| PyBool (b : bool)
| PyInt (z : Z)
| PyFloat (q : Q)
| PyStr (s : string)
| PyList (l : list pyval)
| PyDict (d : list (string * pyval)).

(** [type(v).__name__] *)
Definition type_name (v : pyval) : string :=
  match v with
  | PyNone => "NoneType"
  | PyBool _ => "bool"
  | PyInt _ => "int"
  | PyFloat _ => "float"
  | PyStr _ => "str"
  | PyList _ => "list"
  | PyDict _ => "dict"
  end.

Definition Z_of_bool (b : bool) : Z := if b then 1%Z else 0%Z.

(** The integer behind an [int] or a [bool] ([bool] is a subclass of
    [int]). *)
Definition int_of (v : pyval) : option Z :=
  match v with
  | PyBool b => Some (Z_of_bool b)
  | PyInt z => Some z
  | _ => None
  end.

(** The number behind an [int], [bool] or [float]. *)
Definition num_of (v : pyval) : option Q :=
  match v with
  | PyBool b => Some (inject_Z (Z_of_bool b))
  | PyInt z => Some (inject_Z z)
  | PyFloat q => Some q
  | _ => None
  end.

(** [bool(v)] *)
Definition truthy (v : pyval) : bool :=
  match v with
  | PyNone => false
  | PyBool b => b
  | PyInt z => negb (z =? 0)%Z
  | PyFloat q => negb (Qeq_bool q 0)
  | PyStr s => negb (s =? "")%string
  | PyList l => match l with [] => false | _ :: _ => true end
  | PyDict d => match d with [] => false | _ :: _ => true end
  end.

(** A dict is kept as its items in insertion order; a key is looked up
    at its first item. *)
Fixpoint lookup (key : string) (d : list (string * pyval)) : option pyval :=
  match d with
  | [] => None
  | (k, v) :: d' => if (k =? key)%string then Some v else lookup key d'
  end.

Definition quote : string := String (ascii_of_nat 34) "".

Definition no_attribute (v : pyval) (attr : string) : exn :=
  Exception_ ("'" ++ type_name v ++ "' object has no attribute '" ++ attr ++ "'").

(** [o.get(key, default)]: only a dict has the method. *)
Definition get (o : pyval) (key : string) (default : pyval) : result pyval :=
  match o with
  | PyDict d =>
      Ok (match lookup key d with Some v => v | None => default end)
  | _ => Raise (no_attribute o "get")
  end.

(** [float(z)] for an int [z]: below [2^53] every int is a double;
    from there on the int is rounded to 53 significant bits, ties to
    even, and an int that rounds to [2^1024] or more is an
    [OverflowError]. *)
Definition float_of_int (z : Z) : result Q :=
  let a := Z.abs z in
  if (a <? 9007199254740992)%Z then Ok (inject_Z z)
  else
    let shift := (Z.log2 a - 52)%Z in
    let q := (a / 2 ^ shift)%Z in
    let r := (a mod 2 ^ shift)%Z in
    let half := (2 ^ (shift - 1))%Z in
    let q' :=
      if (half <? r)%Z || ((r =? half)%Z && Z.odd q) then (q + 1)%Z else q in
    let m := (q' * 2 ^ shift)%Z in
    if (1024 <=? Z.log2 m)%Z
    then Raise (Exception_ "int too large to convert to float")
    else Ok (inject_Z (Z.sgn z * m)).

(** The float a number takes part with in float arithmetic. *)
Definition to_float (v : pyval) : result Q :=
  match v with
  | PyFloat q => Ok q
  | PyInt z => float_of_int z
  | PyBool b => float_of_int (Z_of_bool b)
  | _ => Raise (Exception_ ("must be real number, not " ++ type_name v))
  end.

Definition unsupported_operand (op : string) (a b : pyval) : exn :=
  Exception_ ("unsupported operand type(s) for " ++ op ++ ": '"
              ++ type_name a ++ "' and '" ++ type_name b ++ "'").

Definition cannot_concatenate (a b : pyval) : exn :=
  Exception_ ("can only concatenate " ++ type_name a ++ " (not " ++ quote
              ++ type_name b ++ quote ++ ") to " ++ type_name a).

(** [a + b]: numbers add ([int] with [int] stays an [int]; with a
    [float] both operands are taken as floats), two strings and two
    lists concatenate, anything else is a [TypeError]. *)
Definition add (a b : pyval) : result pyval :=
  match a, b with
  | PyStr s, PyStr t => Ok (PyStr (s ++ t))
  | PyList l, PyList m => Ok (PyList (l ++ m))
  | PyStr _, _ | PyList _, _ => Raise (cannot_concatenate a b)
  | _, _ =>
      match int_of a, int_of b with
      | Some i, Some j => Ok (PyInt (i + j))
      | _, _ =>
          match num_of a, num_of b with
          | Some _, Some _ =>
              let* p := to_float a in
              let* q := to_float b in
              Ok (PyFloat (p + q))
          | _, _ => Raise (unsupported_operand "+" a b)
          end
      end
  end.

(** [a - b]: numbers only. *)
Definition sub (a b : pyval) : result pyval :=
  match int_of a, int_of b with
  | Some i, Some j => Ok (PyInt (i - j))
  | _, _ =>
      match num_of a, num_of b with
      | Some _, Some _ =>
          let* p := to_float a in
          let* q := to_float b in
          Ok (PyFloat (p - q))
      | _, _ => Raise (unsupported_operand "-" a b)
      end
  end.

Definition Qlt_bool (p q : Q) : bool := negb (Qle_bool q p).

Fixpoint mem (k : string) (ks : list string) : bool :=
  match ks with
  | [] => false
  | k' :: ks' => (k' =? k)%string || mem k ks'
  end.

(** [a == b]; it never raises on these types.  Numbers compare by
    value, lists item by item, dicts as sets of items. *)
Fixpoint eq (a b : pyval) {struct a} : bool :=
  match a, b with
  | PyNone, PyNone => true
  | PyStr s, PyStr t => (s =? t)%string
  | PyList l, PyList m =>
      (fix items (l m : list pyval) {struct l} : bool :=
         match l, m with
         | [], [] => true
         | u :: l', v :: m' => eq u v && items l' m'
         | _, _ => false
         end) l m
  | PyDict d, PyDict e =>
      (fix items (seen : list string) (d : list (string * pyval))
           {struct d} : bool :=
         match d with
         | [] => forallb (fun kv => mem (fst kv) seen) e
         | (k, u) :: d' =>
             (if mem k seen then true
              else match lookup k e with
                   | Some v => eq u v
                   | None => false
                   end)
             && items (k :: seen) d'
         end) [] d
  | PyBool _, _ | PyInt _, _ | PyFloat _, _ =>
      match num_of a, num_of b with
      | Some p, Some q => Qeq_bool p q
      | _, _ => false
      end
  | _, _ => false
  end.

Inductive order : Type := LT | GT.

Definition order_symbol (op : order) : string :=
  match op with LT => "<" | GT => ">" end.

Definition not_supported (op : order) (a b : pyval) : exn :=
  Exception_ ("'" ++ order_symbol op ++ "' not supported between instances of '"
              ++ type_name a ++ "' and '" ++ type_name b ++ "'").

(** [a < b] and [a > b]: numbers by value, strings by code point, lists
    by their first differing item; anything else is a [TypeError]. *)
Fixpoint compare (op : order) (a b : pyval) {struct a} : result bool :=
  match a, b with
  | PyStr s, PyStr t =>
      Ok (match op with LT => String.ltb s t | GT => String.ltb t s end)
  | PyList l, PyList m =>
      (fix items (l m : list pyval) {struct l} : result bool :=
         match l, m with
         | u :: l', v :: m' => if eq u v then items l' m' else compare op u v
         | [], [] => Ok false
         | [], _ :: _ => Ok (match op with LT => true | GT => false end)
         | _ :: _, [] => Ok (match op with LT => false | GT => true end)
         end) l m
  | _, _ =>
      match num_of a, num_of b with
      | Some p, Some q =>
          Ok (match op with LT => Qlt_bool p q | GT => Qlt_bool q p end)
      | _, _ => Raise (not_supported op a b)
      end
  end.

(** [min(vs)] and [max(vs)] over a sequence: the first item is the
    candidate, and a later item replaces it when it is strictly smaller
    (larger).  An empty sequence is a [ValueError]. *)
Fixpoint extremum_from (op : order) (best : pyval) (vs : list pyval)
  : result pyval :=
  match vs with
  | [] => Ok best
  | v :: vs' =>
      let* better := compare op v best in
      extremum_from op (if better then v else best) vs'
  end.

Definition extremum (op : order) (name : string) (vs : list pyval)
  : result pyval :=
  match vs with
  | [] => Raise (Exception_ (name ++ "() arg is an empty sequence"))
  | v :: vs' => extremum_from op v vs'
  end.

Definition min (vs : list pyval) : result pyval := extremum LT "min" vs.
Definition max (vs : list pyval) : result pyval := extremum GT "max" vs.

(** The keys of a dict, each once, in insertion order. *)
Fixpoint keys_from (seen : list string) (d : list (string * pyval))
  : list string :=
  match d with
  | [] => []
  | (k, _) :: d' =>
      if mem k seen then keys_from seen d' else k :: keys_from (k :: seen) d'
  end.

Definition keys (d : list (string * pyval)) : list string := keys_from [] d.

(** The number of bytes of the UTF-8 sequence that the byte [c]
    begins. *)
Definition utf8_width (c : ascii) : nat :=
  let n := nat_of_ascii c in
  if (n <? 192)%nat then 1%nat
  else if (n <? 224)%nat then 2%nat
  else if (n <? 240)%nat then 3%nat
  else 4%nat.

(** The characters (code points) of a string, each as a string of its
    own. *)
Fixpoint chars (s : string) : list string :=
  match s with
  | EmptyString => []
  | String c s1 =>
      match utf8_width c, s1 with
      | 2%nat, String c1 s2 => String c (String c1 "") :: chars s2
      | 3%nat, String c1 (String c2 s3) =>
          String c (String c1 (String c2 "")) :: chars s3
      | 4%nat, String c1 (String c2 (String c3 s4)) =>
          String c (String c1 (String c2 (String c3 ""))) :: chars s4
      | _, _ => String c "" :: chars s1
      end
  end.

(** [''.join(cs)] *)
Definition join (cs : list string) : string := fold_right append "" cs.

(** The items a [for] loop over [v] visits: the items of a list, the
    characters of a string, the keys of a dict. *)
Definition iter (v : pyval) : result (list pyval) :=
  match v with
  | PyList l => Ok l
  | PyStr s => Ok (map PyStr (chars s))
  | PyDict d => Ok (map PyStr (keys d))
  | _ => Raise (Exception_ ("'" ++ type_name v ++ "' object is not iterable"))
  end.

(** [v[0]].  The keys of a decoded JSON object are strings, so [0] is
    never one of them and a dict answers [KeyError(0)], whose text is
    ["0"]. *)
Definition getitem0 (v : pyval) : result pyval :=
  match v with
  | PyList (u :: _) => Ok u
  | PyList [] => Raise (Exception_ "list index out of range")
  | PyStr s =>
      match chars s with
      | c :: _ => Ok (PyStr c)
      | [] => Raise (Exception_ "string index out of range")
      end
  | PyDict _ => Raise (Exception_ "0")
  | _ => Raise (Exception_ ("'" ++ type_name v ++ "' object is not subscriptable"))
  end.

Definition utf8 (bytes : list nat) : string :=
  fold_right (fun n s => String (ascii_of_nat n) s) "" bytes.

(** The characters [str.strip()] removes, those [str.isspace()] holds
    of: U+0009 to U+000D, U+001C to U+0020, U+0085, U+00A0, U+1680,
    U+2000 to U+200A, U+2028, U+2029, U+202F, U+205F and U+3000. *)
Definition whitespace : list string :=
  map utf8
    [[9]; [10]; [11]; [12]; [13]; [28]; [29]; [30]; [31]; [32];
     [194; 133]; [194; 160]; [225; 154; 128];
     [226; 128; 128]; [226; 128; 129]; [226; 128; 130]; [226; 128; 131];
     [226; 128; 132]; [226; 128; 133]; [226; 128; 134]; [226; 128; 135];
     [226; 128; 136]; [226; 128; 137]; [226; 128; 138];
     [226; 128; 168]; [226; 128; 169]; [226; 128; 175];
     [226; 129; 159]; [227; 128; 128]]%nat.

Definition isspace (c : string) : bool := existsb (String.eqb c) whitespace.

Fixpoint lstrip (cs : list string) : list string :=
  match cs with
  | [] => []
  | c :: cs' => if isspace c then lstrip cs' else cs
  end.

Definition rstrip (cs : list string) : list string := rev (lstrip (rev cs)).

(** [v.strip()]: only a string has the method. *)
Definition strip (v : pyval) : result string :=
  match v with
  | PyStr s => Ok (join (rstrip (lstrip (chars s))))
  | _ => Raise (no_attribute v "strip")
  end.

(** [total += v] on a float [total]. *)
Definition float_iadd (total : Q) (v : pyval) : result Q :=
  match num_of v with
  | Some _ => let* q := to_float v in Ok (total + q)
  | None => Raise (unsupported_operand "+=" (PyFloat total) v)
  end.

End Py.

(** ** The response normaliser *)

Module OCRService.
Import Py.

(** The bounding-box dict [{'x', 'y', 'width', 'height', 'x2', 'y2'}]. *)
Record bbox : Type := {
  box_x : pyval;
  box_y : pyval;
  box_width : pyval;
  box_height : pyval;
  box_x2 : pyval;
  box_y2 : pyval
}.

Definition zero_box : bbox :=
  {| box_x := PyInt 0; box_y := PyInt 0; box_width := PyInt 0;
     box_height := PyInt 0; box_x2 := PyInt 0; box_y2 := PyInt 0 |}.

Definition _parse_word_coordinates (word : pyval) : result bbox :=
  try_
    (let* left_ := get word "Left" (PyInt 0) in
     let* top := get word "Top" (PyInt 0) in
     let* width := get word "Width" (PyInt 0) in
     let* height := get word "Height" (PyInt 0) in
     let* x2 := add left_ width in
     let* y2 := add top height in
     Ok {| box_x := left_; box_y := top; box_width := width;
           box_height := height; box_x2 := x2; box_y2 := y2 |})
    (fun _ => Ok zero_box).

(** The word dict [{'text', 'confidence', 'boundingBox', 'lineIndex'}]. *)
Record word_data : Type := {
  w_text : pyval;
  w_confidence : pyval;
  w_boundingBox : bbox;
  w_lineIndex : nat
}.

(** A word dict is appended to two lists, the request's flat list and
    its line's list.  It is never written after its creation, so a
    reference to it is its identity together with its content. *)
Record word_ref : Type := {
  oid : nat;
  oval : word_data
}.

Definition boxes_of (line_words : list word_ref) : list bbox :=
  map (fun word => w_boundingBox (oval word)) line_words.

Definition _calculate_line_bounding_box (line_words : list word_ref)
  : result bbox :=
  try_
    (match line_words with
     | [] => Ok zero_box
     | _ :: _ =>
         let* min_x := Py.min (map box_x (boxes_of line_words)) in
         let* min_y := Py.min (map box_y (boxes_of line_words)) in
         let* max_x2 := Py.max (map box_x2 (boxes_of line_words)) in
         let* max_y2 := Py.max (map box_y2 (boxes_of line_words)) in
         let* width := sub max_x2 min_x in
         let* height := sub max_y2 min_y in
         Ok {| box_x := min_x; box_y := min_y; box_width := width;
               box_height := height; box_x2 := max_x2; box_y2 := max_y2 |}
     end)
    (fun _ => Ok zero_box).

(** The line dict [{'text', 'boundingBox', 'words', 'lineIndex'}]. *)
Record line_data : Type := {
  l_text : pyval;
  l_boundingBox : bbox;
  l_words : list word_ref;
  l_lineIndex : nat
}.

(** The dict [process_ocr_api] returns: the success shape or the failure
    shape.  [error] is a Python value: the provider's own [ErrorMessage]
    is passed on as it came. *)
Inductive ocr_result : Type :=
| Success (text : string) (confidence : Q) (language : string)
          (words : list word_ref) (lines : list line_data)
| Failure (error : pyval).

(** The locals the two loops update.  [next_id] is the identity the
    next word dict gets. *)
Record locals : Type := {
  words : list word_ref;
  lines : list line_data;
  total_confidence : Q;
  word_count : nat;
  next_id : nat
}.

Definition initial_locals : locals :=
  {| words := []; lines := []; total_confidence := 0; word_count := 0;
     next_id := 0 |}.

(** One turn of the loop over a line's words. *)
Definition process_word (line_idx : nat) (st : locals)
    (line_words : list word_ref) (word : pyval)
  : result (locals * list word_ref) :=
  let* word_text := get word "WordText" (PyStr "") in
  let* word_confidence := get word "Confidence" (PyInt 0) in
  let* word_coords := _parse_word_coordinates word in
  let word_data :=
    {| oid := next_id st;
       oval := {| w_text := word_text; w_confidence := word_confidence;
                  w_boundingBox := word_coords; w_lineIndex := line_idx |} |} in
  let* total := float_iadd (total_confidence st) word_confidence in
  Ok ({| words := words st ++ [word_data];
         lines := lines st;
         total_confidence := total;
         word_count := S (word_count st);
         next_id := S (next_id st) |},
      (line_words ++ [word_data])%list).

Fixpoint process_words (line_idx : nat) (st : locals)
    (line_words : list word_ref) (ws : list pyval)
  : result (locals * list word_ref) :=
  match ws with
  | [] => Ok (st, line_words)
  | word :: ws' =>
      let* (st', line_words') := process_word line_idx st line_words word in
      process_words line_idx st' line_words' ws'
  end.

(** One turn of the loop over the overlay's lines. *)
Definition process_line (line_idx : nat) (st : locals) (line : pyval)
  : result locals :=
  let* line_text := get line "LineText" (PyStr "") in
  let* line_words_field := get line "Words" (PyList []) in
  let* ws := iter line_words_field in
  let* (st', line_words) := process_words line_idx st [] ws in
  let* line_coords := _calculate_line_bounding_box line_words in
  let line_data :=
    {| l_text := line_text; l_boundingBox := line_coords;
       l_words := line_words; l_lineIndex := line_idx |} in
  Ok {| words := words st';
        lines := lines st' ++ [line_data];
        total_confidence := total_confidence st';
        word_count := word_count st';
        next_id := next_id st' |}.

(** [for line_idx, line in enumerate(ls)], entered at [line_idx]. *)
Fixpoint process_lines (line_idx : nat) (st : locals) (ls : list pyval)
  : result locals :=
  match ls with
  | [] => Ok st
  | line :: ls' =>
      let* st' := process_line line_idx st line in
      process_lines (S line_idx) st' ls'
  end.

Definition Q_of_nat (n : nat) : Q := inject_Z (Z.of_nat n).

Definition avg_confidence (st : locals) : Q :=
  if (0 <? word_count st)%nat
  then total_confidence st / Q_of_nat (word_count st)
  else 0.

(** The rest of [process_ocr_api] once the answer has passed the two
    early returns: the first parsed result, its overlay, the loops and
    the success dict. *)
Definition process_parsed_results (parsed_results : pyval) (language : string)
  : result ocr_result :=
  let* parsed_result := getitem0 parsed_results in
  let* text_overlay := get parsed_result "TextOverlay" (PyDict []) in
  let* parsed_text := get parsed_result "ParsedText" (PyStr "") in
  let* extracted_text := strip parsed_text in
  let* overlay_lines := get text_overlay "Lines" (PyList []) in
  let* ls := iter overlay_lines in
  let* st := process_lines 0 initial_locals ls in
  Ok (Success extracted_text (avg_confidence st / 100) language
              (words st) (lines st)).

(** What [process_ocr_api] does with the decoded answer [result], from
    the error flag on. *)
Definition normalise (result_ : pyval) (language : string)
  : result ocr_result :=
  let* errored := get result_ "IsErroredOnProcessing" PyNone in
  if truthy errored then
    let* error_msg := get result_ "ErrorMessage" (PyStr "OCR API error") in
    Ok (Failure error_msg)
  else
    let* parsed_results := get result_ "ParsedResults" (PyList []) in
    if negb (truthy parsed_results) then
      Ok (Failure (PyStr "No text found in image"))
    else
      process_parsed_results parsed_results language.

(** *** The provider call *)

(** The multipart request sent to the provider. *)
Record request : Type := {
  url : string;
  timeout : Q;
  files : list (string * (string * list Byte.byte * string));
  data : list (string * string)
}.

(** The collaborators outside the service: Pillow re-encoding the
    upload as an RGB JPEG, and the provider behind httpx
    ([client.post], [raise_for_status] and [response.json()] together).
    Either may raise. *)
Record world : Type := {
  encode_jpeg : list Byte.byte -> result (list Byte.byte);
  send : request -> result pyval;
  (** [time.time()], by the rank of the reading within the request *)
  time : nat -> Q;
  (** pydantic on a number given for a [str] field: version 1 converts
      it, version 2 rejects it *)
  str_of_number : pyval -> result string;
  (** the text of pydantic's [ValidationError] for a rejected value *)
  validation_message : pyval -> string
}.

Definition ocr_api_key : string := "K81634588988957".
Definition ocr_api_url : string := "https://api.ocr.space/parse/image".

Definition api_request (jpeg : list Byte.byte) (language : string) : request :=
  {| url := ocr_api_url;
     timeout := 60;
     files := [("image", ("image.jpg", jpeg, "image/jpeg"))];
     data := [("apikey", ocr_api_key); ("language", language);
              ("OCREngine", "1"); ("isOverlayRequired", "true");
              ("detectOrientation", "true"); ("scale", "true")] |}.

(** An [int] in an f-string. *)
Definition format_int (z : Z) : string := NilZero.string_of_int (Z.to_int z).

(** The three [except] clauses of [process_ocr_api]. *)
Definition api_handler (e : exn) : result ocr_result :=
  match e with
  | TimeoutException _ =>
      Ok (Failure (PyStr "OCR API request timed out. Try with a smaller image or check your internet connection."))
  | HTTPStatusError status_code _ =>
      if (status_code =? 429)%Z then
        Ok (Failure (PyStr "OCR API rate limit exceeded. Please wait a moment and try again."))
      else if (status_code =? 413)%Z then
        Ok (Failure (PyStr "Image too large for OCR API. Please use a smaller image."))
      else
        Ok (Failure (PyStr ("OCR API error: " ++ format_int status_code)))
  | Exception_ _ =>
      Ok (Failure (PyStr ("OCR API call failed: " ++ str e)))
  end.

(** [process_ocr_api], with the requests sent to the provider so far
    threaded through: [calls] before, the second component after. *)
Definition process_ocr_api (w : world) (image_data : list Byte.byte)
    (language : string) (calls : list request)
  : result ocr_result * list request :=
  match encode_jpeg w image_data with
  | Raise e => (api_handler e, calls)
  | Ok jpeg =>
      let req := api_request jpeg language in
      (try_ (let* result_ := send w req in normalise result_ language)
            api_handler,
       (calls ++ [req])%list)
  end.

End OCRService.

(** ** The request handler *)

Module Relay.
Import Py OCRService.

(** The response model.  [None] is a field left at its default. *)
Record OCRResponse : Type := {
  success : bool;
  text : option string;
  confidence : option Q;
  error_message : option string;
  processing_time_ms : Q;
  image_size_bytes : Z;
  language_used : string;
  words : option (list word_ref);
  lines : option (list line_data)
}.

(** pydantic's check of a value given for [error_message: Optional[str]]
    when the model is built: [None] and strings pass, lists and dicts
    are rejected with a [ValidationError]. *)
Definition validate_optional_str (w : world) (v : pyval)
  : result (option string) :=
  match v with
  | PyNone => Ok None
  | PyStr s => Ok (Some s)
  | PyList _ | PyDict _ => Raise (Exception_ (validation_message w v))
  | PyBool _ | PyInt _ | PyFloat _ =>
      let* s := str_of_number w v in Ok (Some s)
  end.

(** The uploaded file: what [await image.read()] gives. *)
Record UploadFile : Type := {
  read : result (list Byte.byte)
}.

(** What leaves the handler when it does not return: FastAPI's
    [HTTPException], answered with its status code, or any other
    exception. *)
Inductive raised : Type :=
| HTTPException (status_code : Z) (detail : string)
| Other (e : exn).

Inductive outcome : Type :=
| Return (response : OCRResponse)
| Throw (r : raised).

Definition len (image_data : list Byte.byte) : Z :=
  Z.of_nat (List.length image_data).

(** The state a request carries along: the requests sent to the
    provider and the number of clock readings made. *)
Record effects : Type := {
  calls : list request;
  readings : nat
}.

(** The [try] block of [process_ocr]; the clock was read once before. *)
Definition process_ocr_body (w : world) (image : option UploadFile)
    (language : string) (start_time : Q) (calls0 : list request)
  : outcome * effects :=
  match image with
  | None =>
      (Throw (HTTPException 400 "No image file provided"),
       {| calls := calls0; readings := 1 |})
  | Some file =>
      match read file with
      | Raise e => (Throw (Other e), {| calls := calls0; readings := 1 |})
      | Ok image_data =>
          if (1024 * 1024 <? len image_data)%Z then
            (Throw (HTTPException 413
                      ("Image too large: " ++ format_int (len image_data)
                       ++ " bytes (max: 1MB)")),
             {| calls := calls0; readings := 1 |})
          else
            let (r, calls1) := process_ocr_api w image_data language calls0 in
            match r with
            | Raise e => (Throw (Other e), {| calls := calls1; readings := 1 |})
            | Ok ocr_result =>
                let processing_time_ms := (time w 1 - start_time) * 1000 in
                let fx := {| calls := calls1; readings := 2 |} in
                match ocr_result with
                | Success text_ confidence_ language_ words_ lines_ =>
                    (Return {| success := true;
                               text := Some text_;
                               confidence := Some confidence_;
                               error_message := None;
                               processing_time_ms := processing_time_ms;
                               image_size_bytes := len image_data;
                               language_used := language_;
                               words := Some words_;
                               lines := Some lines_ |}, fx)
                | Failure error =>
                    match validate_optional_str w error with
                    | Raise e => (Throw (Other e), fx)
                    | Ok error_message_ =>
                        (Return {| success := false;
                                   text := None;
                                   confidence := None;
                                   error_message := error_message_;
                                   processing_time_ms := processing_time_ms;
                                   image_size_bytes := len image_data;
                                   language_used := language;
                                   words := Some [];
                                   lines := Some [] |}, fx)
                    end
                end
            end
      end
  end.

(** [process_ocr]: the body under [except HTTPException: raise] and
    [except Exception as e]. *)
Definition process_ocr (w : world) (image : option UploadFile)
    (language : string) (calls0 : list request)
  : outcome * list request :=
  let start_time := time w 0 in
  let (o, fx) := process_ocr_body w image language start_time calls0 in
  match o with
  | Throw (Other e) =>
      let processing_time_ms := (time w (readings fx) - start_time) * 1000 in
      (Return {| success := false;
                 text := None;
                 confidence := None;
                 error_message := Some ("Internal server error: " ++ str e);
                 processing_time_ms := processing_time_ms;
                 image_size_bytes := 0;
                 language_used := language;
                 words := None;
                 lines := None |}, calls fx)
  | _ => (o, calls fx)
  end.

End Relay.

(** ** The vocabulary of the properties *)

Module Spec.
Import Py OCRService.

Definition is_number (v : pyval) : Prop := exists q, num_of v = Some q.

(** [u <= v] between numbers. *)
Definition le (u v : pyval) : Prop :=
  exists p q, num_of u = Some p /\ num_of v = Some q /\ p <= q.


(** [s] is the number [a + b]. *)
Definition sum_of (a b s : pyval) : Prop :=
  exists p q r,
    num_of a = Some p /\ num_of b = Some q /\ num_of s = Some r /\ r == p + q.




Definition is_float (v : pyval) : Prop := exists q, v = PyFloat q.

(** A float holds the number [v] as it is: [v] is a float, or an int
    that the conversion to a float leaves unchanged. *)
Definition exact (v : pyval) : Prop :=
  forall z, int_of v = Some z -> float_of_int z = Ok (inject_Z z).

(** [v] is an int beyond the range of a float. *)
Definition too_large (v : pyval) : Prop :=
  exists z e, int_of v = Some z /\ float_of_int z = Raise e.

(** Where one of [a] and [b] is a float, a float holds the other as it
    is. *)
Definition mixes_exactly (a b : pyval) : Prop :=
  (is_float a -> exact b) /\ (is_float b -> exact a).

(** One of [a] and [b] is a float, the other an int beyond the range of
    a float. *)
Definition overflows (a b : pyval) : Prop :=
  (is_float a /\ too_large b) \/ (too_large a /\ is_float b).

(** The operands Python's [+] takes: two strings, two lists, or two
    numbers that do not overflow. *)
Definition addable (a b : pyval) : Prop :=
  (exists s t, a = PyStr s /\ b = PyStr t) \/
  (exists l m, a = PyList l /\ b = PyList m) \/
  (is_number a /\ is_number b /\ ~ overflows a b).



Definition numeric_corners (b : bbox) : Prop :=
  is_number (box_x b) /\ is_number (box_y b) /\
  is_number (box_x2 b) /\ is_number (box_y2 b).


(** A field of a provider record, [0] when absent. *)
Definition field (d : list (string * pyval)) (key : string) : pyval :=
  match lookup key d with Some v => v | None => PyInt 0 end.

(** The three fields of the provider's answer the early returns read. *)
Definition errored_flag (d : list (string * pyval)) : pyval :=
  match lookup "IsErroredOnProcessing" d with Some v => v | None => PyNone end.

Definition provider_error_message (d : list (string * pyval)) : pyval :=
  match lookup "ErrorMessage" d with
  | Some v => v
  | None => PyStr "OCR API error"
  end.

Definition parsed_results_of (d : list (string * pyval)) : pyval :=
  match lookup "ParsedResults" d with Some v => v | None => PyList [] end.

(** The box [_parse_word_coordinates] builds when nothing fails. *)
Definition box_of_fields (d : list (string * pyval)) (x2 y2 : pyval) : bbox :=
  {| box_x := field d "Left"; box_y := field d "Top";
     box_width := field d "Width"; box_height := field d "Height";
     box_x2 := x2; box_y2 := y2 |}.

(** A record one of whose four coordinate fields is no number. *)
Definition malformed (d : list (string * pyval)) : Prop :=
  exists key,
    In key ["Left"; "Top"; "Width"; "Height"] /\ ~ is_number (field d key).

(** The float a value stands for in a float sum, [0] for a value that
    has none. *)
Definition number (v : pyval) : Q :=
  match to_float v with Ok q => q | Raise _ => 0 end.

Fixpoint sum_confidences (ws : list word_ref) : Q :=
  match ws with
  | [] => 0
  | r :: ws' => number (w_confidence (oval r)) + sum_confidences ws'
  end.

(** What the loop body establishes of a word it creates on line
    [line_idx]. *)
Definition built_word (line_idx : nat) (r : word_ref) : Prop :=
  w_lineIndex (oval r) = line_idx /\
  is_number (w_confidence (oval r)) /\
  exists word,
    _parse_word_coordinates word = Ok (w_boundingBox (oval r)) /\
    get word "Confidence" (PyInt 0) = Ok (w_confidence (oval r)) /\
    get word "WordText" (PyStr "") = Ok (w_text (oval r)).

(** What the loop body establishes of a line it creates. *)
Definition built_line (l : line_data) : Prop :=
  _calculate_line_bounding_box (l_words l) = Ok (l_boundingBox l) /\
  Forall (built_word (l_lineIndex l)) (l_words l).

Definition all_words (ls : list line_data) : list word_ref :=
  List.concat (map l_words ls).

(** The parts of a success dict, empty for anything else. *)
Definition result_words (r : result ocr_result) : list word_ref :=
  match r with Ok (Success _ _ _ ws _) => ws | _ => [] end.

Definition result_lines (r : result ocr_result) : list line_data :=
  match r with Ok (Success _ _ _ _ ls) => ls | _ => [] end.

Definition result_confidence (r : result ocr_result) : Q :=
  match r with Ok (Success _ c _ _ _) => c | _ => 0 end.

Definition is_success (r : result ocr_result) : Prop :=
  match r with Ok (Success _ _ _ _ _) => True | _ => False end.


Definition result_text (r : result ocr_result) : string :=
  match r with Ok (Success t _ _ _ _) => t | _ => "" end.


(** The lines the outer loop visits: those of the overlay of the first
    parsed result. *)
Definition overlay_lines (result_ : pyval) : result (list pyval) :=
  let* parsed_results := get result_ "ParsedResults" (PyList []) in
  let* parsed_result := getitem0 parsed_results in
  let* text_overlay := get parsed_result "TextOverlay" (PyDict []) in
  let* lines_field := get text_overlay "Lines" (PyList []) in
  iter lines_field.

(** The words the inner loop visits on a line. *)
Definition line_words_of (line : pyval) : result (list pyval) :=
  let* words_field := get line "Words" (PyList []) in
  iter words_field.

(** The word dict [r] was made from the provider's [word] on line
    [line_idx]. *)
Definition word_from (line_idx : nat) (word : pyval) (r : word_ref) : Prop :=
  get word "WordText" (PyStr "") = Ok (w_text (oval r)) /\
  get word "Confidence" (PyInt 0) = Ok (w_confidence (oval r)) /\
  _parse_word_coordinates word = Ok (w_boundingBox (oval r)) /\
  w_lineIndex (oval r) = line_idx.

(** The line dict [l] was made from the provider's [line]. *)
Definition line_from (line : pyval) (l : line_data) : Prop :=
  get line "LineText" (PyStr "") = Ok (l_text l) /\
  exists ws,
    line_words_of line = Ok ws /\
    Forall2 (word_from (l_lineIndex l)) ws (l_words l).

(** All the words the loops visit, line after line. *)
Definition provider_words (result_ : pyval) : list pyval :=
  match overlay_lines result_ with
  | Ok ls =>
      List.concat
        (map (fun line =>
                match line_words_of line with Ok ws => ws | Raise _ => [] end)
             ls)
  | Raise _ => []
  end.

(** An exception of no class that [process_ocr_api] tells apart. *)
Definition plain (e : exn) : Prop := exists m, e = Exception_ m.

(** The [ParsedText] of the first parsed result, [''] when absent. *)
Definition parsed_text_of (result_ : pyval) : result pyval :=
  let* parsed_results := get result_ "ParsedResults" (PyList []) in
  let* parsed_result := getitem0 parsed_results in
  get parsed_result "ParsedText" (PyStr "").

Definition all_space (cs : list string) : bool := forallb isspace cs.

Definition first_is_space (cs : list string) : bool :=
  match cs with
  | [] => false
  | c :: _ => isspace c
  end.

Definition last_is_space (cs : list string) : bool := first_is_space (rev cs).

End Spec.

(** ** Sample answers and collaborators *)

Module Examples.
Import Py OCRService Relay Spec.

(** A word of the provider's overlay. *)
Definition word_record (word_text : string)
    (left_ top width height : pyval) : pyval :=
  PyDict [("WordText", PyStr word_text); ("Left", left_); ("Top", top);
          ("Height", height); ("Width", width)].

Definition scored_word (word_text : string) (confidence : pyval)
    (left_ top width height : pyval) : pyval :=
  PyDict [("WordText", PyStr word_text); ("Confidence", confidence);
          ("Left", left_); ("Top", top);
          ("Height", height); ("Width", width)].

Definition line_record (line_text : string) (ws : list pyval) : pyval :=
  PyDict [("LineText", PyStr line_text); ("Words", PyList ws)].

(** An answer of the provider with one parsed result. *)
Definition answer (parsed_text : string) (ls : list pyval) : pyval :=
  PyDict [("ParsedResults",
           PyList [PyDict [("TextOverlay",
                            PyDict [("Lines", PyList ls);
                                    ("HasOverlay", PyBool true)]);
                           ("ParsedText", PyStr parsed_text)]]);
          ("IsErroredOnProcessing", PyBool false)].

(** Two lines; the first has the words at (0,0,10,10) and
    (20,0,10,10). *)
Definition two_lines : pyval :=
  answer "Hello world again "
    [line_record "Hello world"
       [scored_word "Hello" (PyFloat 90) (PyInt 0) (PyInt 0) (PyInt 10) (PyInt 10);
        scored_word "world" (PyInt 70) (PyInt 20) (PyInt 0) (PyInt 10) (PyInt 10)];
     line_record "again"
       [scored_word "again" (PyFloat 80) (PyFloat 3) (PyFloat 14)
                    (PyFloat (25 # 2)) (PyFloat 9)]].


(** The fields of a word whose Left and Width came as text. *)
Definition text_fields : list (string * pyval) :=
  [("WordText", PyStr "ab"); ("Left", PyStr "a"); ("Width", PyStr "b")].

(** A line of two words: one at Left = 10^400, one at Left = 0.5 with
    Width = 1.0. *)
Definition far_apart : pyval :=
  answer "a b"
    [line_record "a b"
       [word_record "a" (PyInt (10 ^ 400)) (PyInt 0) (PyInt 0) (PyInt 0);
        word_record "b" (PyFloat (1 # 2)) (PyInt 0) (PyFloat 1) (PyInt 0)]].


(** The provider's error answer; its [ErrorMessage] is a list of
    strings. *)
Definition errored : pyval :=
  PyDict [("ParsedResults", PyNone);
          ("IsErroredOnProcessing", PyBool true);
          ("ErrorMessage", PyList [PyStr "Unable to recognize the file type"])].

(** The error answer of the scenario, with a string message. *)
Definition bad_image : pyval :=
  PyDict [("IsErroredOnProcessing", PyBool true);
          ("ErrorMessage", PyStr "Bad image")].

(** A world whose provider gives [provider_outcome]: the upload is
    forwarded as it is, the clock advances by a quarter of a second per
    reading, pydantic is version 2. *)
Definition world_of (provider_outcome : result pyval) : world :=
  {| encode_jpeg := fun image_data => Ok image_data;
     send := fun _ => provider_outcome;
     time := fun n => inject_Z (Z.of_nat n) / 4;
     str_of_number := fun _ => Raise (Exception_ "Input should be a valid string");
     validation_message := fun _ => "Input should be a valid string" |}.

Definition small_image : list Byte.byte := [Byte.xff; Byte.xd8; Byte.xff].

Definition small_upload : UploadFile := {| read := Ok small_image |}.

(** One byte more than 1 MiB. *)
Definition large_image : list Byte.byte := repeat Byte.x00 (N.to_nat 1048577).

Definition large_upload : UploadFile := {| read := Ok large_image |}.

Definition broken_upload : UploadFile :=
  {| read := Raise (Exception_ "I/O operation on closed file.") |}.

(** An answer whose second word has text for a confidence. *)
Definition text_confidence : pyval :=
  answer "ab"
    [line_record "ab"
       [scored_word "a" (PyInt 90) (PyInt 0) (PyInt 0) (PyInt 5) (PyInt 5);
        scored_word "b" (PyStr "high") (PyInt 6) (PyInt 0) (PyInt 5) (PyInt 5)]].

(** An answer as the provider sends it: the words carry no
    [Confidence]. *)
Definition unscored : pyval :=
  answer " Hello world "
    [line_record "Hello world"
       [word_record "Hello" (PyFloat 4) (PyFloat 7) (PyFloat 40) (PyFloat 12);
        word_record "world" (PyFloat 50) (PyFloat 7) (PyFloat 42) (PyFloat 12)]].

(** An answer whose text lies between U+00A0 (no-break space) and
    U+2003 (em space). *)
Definition padded : pyval :=
  answer (utf8 [194; 160; 104; 105; 226; 128; 131]%nat) [].

(** A parsed result with neither overlay nor text, and a second one
    behind it. *)
Definition bare_result : pyval :=
  PyDict [("IsErroredOnProcessing", PyBool false);
          ("ParsedResults",
           PyList [PyDict [("FileParseExitCode", PyInt 1)];
                   PyDict [("ParsedText", PyStr "ignored")]])].




End Examples.

(** * Properties *)

Import Py OCRService Spec.

(** ** Python's operators on numbers *)



(** The two kinds of numbers. *)
Lemma num_cases v p :
  num_of v = Some p ->
  (exists z, int_of v = Some z /\ p = inject_Z z /\
             to_float v = float_of_int z) \/
  v = PyFloat p.
Proof.
  destruct v; simpl; intros H; inversion H; eauto.
Qed.

Lemma to_float_exact v p : num_of v = Some p -> exact v -> to_float v = Ok p.
Proof.
  intros Hv He. destruct (num_cases v p Hv) as [(z & Hz & -> & ->) | ->].
  - apply He. exact Hz.
  - reflexivity.
Qed.

Lemma add_ints a b i j :
  int_of a = Some i -> int_of b = Some j -> add a b = Ok (PyInt (i + j)).
Proof.
  destruct a; destruct b; simpl; intros Ha Hb; inversion Ha; inversion Hb;
    reflexivity.
Qed.


(** With a float among two numbers both are taken as floats. *)
Lemma add_floats a b :
  is_number a -> is_number b -> is_float a \/ is_float b ->
  add a b =
    (let* p := to_float a in let* q := to_float b in Ok (PyFloat (p + q))).
Proof.
  intros [p Ha] [q Hb] [[x ->] | [x ->]].
  - destruct b; simpl in Hb; try discriminate; reflexivity.
  - destruct a; simpl in Ha; try discriminate; reflexivity.
Qed.


Lemma number_cases a b p q :
  num_of a = Some p -> num_of b = Some q ->
  (exists i j, int_of a = Some i /\ int_of b = Some j /\
               p = inject_Z i /\ q = inject_Z j) \/
  is_float a \/ is_float b.
Proof.
  intros Ha Hb.
  destruct (num_cases a p Ha) as [(i & Hi & -> & _) | ->];
    [| right; left; eexists; reflexivity].
  destruct (num_cases b q Hb) as [(j & Hj & -> & _) | ->];
    [| right; right; eexists; reflexivity].
  left. exists i, j. auto.
Qed.

Lemma mixed_floats a b p q :
  num_of a = Some p -> num_of b = Some q ->
  is_float a \/ is_float b -> mixes_exactly a b ->
  to_float a = Ok p /\ to_float b = Ok q.
Proof.
  intros Ha Hb Hf [Hab Hba].
  destruct Hf as [Hf | Hf].
  - split; [destruct Hf as [x ->]; inversion Ha; reflexivity |].
    apply to_float_exact; auto.
  - split; [apply to_float_exact; auto |].
    destruct Hf as [x ->]; inversion Hb; reflexivity.
Qed.

Lemma add_numbers a b p q :
  num_of a = Some p -> num_of b = Some q -> mixes_exactly a b ->
  exists s r, add a b = Ok s /\ num_of s = Some r /\ r == p + q.
Proof.
  intros Ha Hb Hmix.
  destruct (number_cases a b p q Ha Hb) as [(i & j & Hi & Hj & -> & ->) | Hf].
  - exists (PyInt (i + j)), (inject_Z (i + j)).
    split; [apply add_ints; assumption |].
    split; [reflexivity | rewrite inject_Z_plus; reflexivity].
  - destruct (mixed_floats a b p q Ha Hb Hf Hmix) as [Fa Fb].
    exists (PyFloat (p + q)), (p + q).
    rewrite add_floats by (assumption || (eexists; eassumption)).
    rewrite Fa, Fb. repeat split; reflexivity.
Qed.


(** When [a + b] returns a number, both operands were numbers. *)
Lemma add_Ok_number a b s :
  add a b = Ok s -> is_number s -> is_number a /\ is_number b.
Proof.
  intros Hadd [r Hs].
  destruct a; destruct b; simpl in *; try discriminate;
    try (inversion Hadd; subst; simpl in Hs; discriminate);
    split; eexists; reflexivity.
Qed.

(** ... and the result is their sum, where no int was rounded. *)
Lemma add_number_inv a b s :
  add a b = Ok s -> is_number s -> mixes_exactly a b -> sum_of a b s.
Proof.
  intros Hadd Hs Hmix.
  destruct (add_Ok_number a b s Hadd Hs) as [[p Ha] [q Hb]].
  destruct (add_numbers a b p q Ha Hb Hmix) as (s' & r' & Hadd' & Hs' & Hr).
  rewrite Hadd in Hadd'. inversion Hadd'; subst s'.
  exists p, q, r'. auto.
Qed.

(** Two numbers can be added and subtracted unless one is a float and
    the other an int beyond the range of a float. *)
Lemma to_float_Raise v p e :
  num_of v = Some p -> to_float v = Raise e -> too_large v.
Proof.
  intros Hv Hf. destruct (num_cases v p Hv) as [(z & Hz & _ & Ez) | ->].
  - exists z, e. split; [exact Hz | rewrite <- Ez; exact Hf].
  - discriminate.
Qed.

Lemma too_large_to_float v :
  too_large v -> exists e, to_float v = Raise e /\ ~ is_float v.
Proof.
  intros (z & e & Hz & He). exists e.
  destruct v; simpl in Hz; try discriminate; inversion Hz; subst;
    (split; [exact He | intros [x Hx]; discriminate]).
Qed.

Lemma float_arith_raises (f : Q -> Q -> Q) a b :
  is_number a -> is_number b -> is_float a \/ is_float b ->
  (exists e,
     (let* p := to_float a in let* q := to_float b in Ok (PyFloat (f p q)))
     = Raise e) <-> overflows a b.
Proof.
  intros [p Ha] [q Hb] Hf. split.
  - intros [e He].
    destruct (to_float a) as [x |e'] eqn:Fa.
    + destruct (to_float b) as [y | e''] eqn:Fb; [discriminate |].
      destruct Hf as [Hf | [y Hy]].
      * left. split; [exact Hf |]. exact (to_float_Raise b q e'' Hb Fb).
      * subst b. discriminate.
    + destruct Hf as [[x Hx] | Hf].
      * subst a. discriminate.
      * right. split; [| exact Hf]. exact (to_float_Raise a p e' Ha Fa).
  - intros [[[x ->] Hb'] | [Ha' [y ->]]].
    + destruct (too_large_to_float b Hb') as (e & He & _).
      exists e. simpl. rewrite He. reflexivity.
    + destruct (too_large_to_float a Ha') as (e & He & _).
      exists e. rewrite He. reflexivity.
Qed.

Lemma ints_do_not_overflow a b i j :
  int_of a = Some i -> int_of b = Some j -> ~ overflows a b.
Proof.
  intros Ha Hb [[[x ->] _] | [_ [x ->]]]; discriminate.
Qed.


Lemma add_raises a b :
  is_number a -> is_number b ->
  (exists e, add a b = Raise e) <-> overflows a b.
Proof.
  intros Na Nb. destruct Na as [p Ha]. destruct Nb as [q Hb].
  assert (Na : is_number a) by (exists p; exact Ha).
  assert (Nb : is_number b) by (exists q; exact Hb).
  destruct (number_cases a b p q Ha Hb) as [(i & j & Hi & Hj & _) | Hf].
  - rewrite (add_ints a b i j Hi Hj). split.
    + intros [e He]. discriminate.
    + intros Ho. exfalso. exact (ints_do_not_overflow a b i j Hi Hj Ho).
  - rewrite (add_floats a b Na Nb Hf).
    exact (float_arith_raises _ a b Na Nb Hf).
Qed.





Lemma le_refl a : is_number a -> le a a.
Proof. intros [p Hp]. exists p, p. repeat split; auto. apply Qle_refl. Qed.








(** ** The line box *)







(** ** The word box *)

Lemma bind_Ok {A B : Type} (m : result A) (k : A -> result B) (b : B) :
  bind m k = Ok b -> exists a, m = Ok a /\ k a = Ok b.
Proof. destruct m as [a | e]; simpl; intros H; [eauto | discriminate]. Qed.

Ltac bind_inv H :=
  let a := fresh "a" in
  let Ha := fresh "H" a in
  apply bind_Ok in H; destruct H as (a & Ha & H).

(** The two ways [_parse_word_coordinates] ends: with the box of the
    four fields, or, when a step raised, with the all-zero box. *)
Lemma parse_word_coordinates_cases (word : pyval) :
  (exists d x2 y2,
     word = PyDict d /\
     add (field d "Left") (field d "Width") = Ok x2 /\
     add (field d "Top") (field d "Height") = Ok y2 /\
     _parse_word_coordinates word = Ok (box_of_fields d x2 y2))
  \/
  (_parse_word_coordinates word = Ok zero_box /\
   ((forall d, word <> PyDict d) \/
    exists d, word = PyDict d /\
      ((exists e, add (field d "Left") (field d "Width") = Raise e) \/
       (exists e, add (field d "Top") (field d "Height") = Raise e)))).
Proof.
  destruct word as [| b | z | q | s | l | d];
    try (right; split; [reflexivity | left; intros d; discriminate]).
  unfold _parse_word_coordinates, get. cbn [bind]. fold (field d "Left").
  fold (field d "Top"). fold (field d "Width"). fold (field d "Height").
  destruct (add (field d "Left") (field d "Width")) as [x2 | e] eqn:Ex.
  - destruct (add (field d "Top") (field d "Height")) as [y2 | e] eqn:Ey.
    + left. exists d, x2, y2. repeat split; try assumption; reflexivity.
    + right. split; [reflexivity |]. right. exists d. split; [reflexivity |].
      right. exists e. assumption.
  - right. split; [reflexivity |]. right. exists d. split; [reflexivity |].
    left. exists e. assumption.
Qed.





(** What [+] takes, and nothing else. *)
Lemma add_addable a b : (exists s, add a b = Ok s) <-> addable a b.
Proof.
  split.
  - intros [s Hs].
    destruct a; destruct b; simpl in Hs; try discriminate;
      try (left; eexists; eexists; split; reflexivity);
      try (right; left; eexists; eexists; split; reflexivity);
      right; right;
      (split; [eexists; reflexivity |]; split; [eexists; reflexivity |]);
      intros Ho;
      match goal with
      | |- False =>
          apply add_raises in Ho; [| eexists; reflexivity ..];
          destruct Ho as [e He]; simpl in He; congruence
      end.
  - intros [(s & t & -> & ->) | [(l & m & -> & ->) | (Na & Nb & Hno)]].
    + eexists. reflexivity.
    + eexists. reflexivity.
    + destruct (add a b) as [s | e] eqn:E; [eauto |].
      exfalso. apply Hno. apply (add_raises a b Na Nb). eauto.
Qed.

(** C3, as stated, fails on a word whose Left and Width came as text:
    the values are malformed, yet nothing fails, since Python's [+]
    concatenates two strings, and the box is x = "a", width = "b",
    x2 = "ab", not the all-zero box. *)
Lemma text_fields_are_kept :
  malformed Examples.text_fields /\
  _parse_word_coordinates (PyDict Examples.text_fields) =
    Ok {| box_x := PyStr "a"; box_y := PyInt 0;
          box_width := PyStr "b"; box_height := PyInt 0;
          box_x2 := PyStr "ab"; box_y2 := PyInt 0 |} /\
  ~ (forall d, malformed d -> _parse_word_coordinates (PyDict d) = Ok zero_box).
Proof.
  assert (Hm : malformed Examples.text_fields).
  { exists "Left". split; [left; reflexivity |].
    intros [q Hq]. discriminate. }
  split; [exact Hm | split; [reflexivity |]].
  intros H. specialize (H Examples.text_fields Hm). discriminate.
Qed.

(** C3 (amended).  Parsing a word's coordinates never raises.  Whatever
    the word record is, [_parse_word_coordinates] returns a box, and in
    that box x2 is x + width and y2 is y + height by Python's [+]: for
    two numbers their sum, where no int is rounded on its way to a
    float.  When the record is a dict whose Left and Width, and whose
    Top and Height, are operands [+] takes (two numbers that do not
    overflow, two strings or two lists), the box has x = Left, y = Top,
    width = Width, height = Height, each field being 0 when absent.
    When the record is no dict, or [+] does not take one of the two
    pairs, the box is the all-zero box. *)
Theorem parse_word_coordinates_never_raises (word : pyval) :
  (exists box,
     _parse_word_coordinates word = Ok box /\
     add (box_x box) (box_width box) = Ok (box_x2 box) /\
     add (box_y box) (box_height box) = Ok (box_y2 box) /\
     (is_number (box_x2 box) ->
      mixes_exactly (box_x box) (box_width box) ->
      sum_of (box_x box) (box_width box) (box_x2 box)) /\
     (is_number (box_y2 box) ->
      mixes_exactly (box_y box) (box_height box) ->
      sum_of (box_y box) (box_height box) (box_y2 box))) /\
  (forall d,
     word = PyDict d ->
     addable (field d "Left") (field d "Width") ->
     addable (field d "Top") (field d "Height") ->
     exists x2 y2,
       add (field d "Left") (field d "Width") = Ok x2 /\
       add (field d "Top") (field d "Height") = Ok y2 /\
       _parse_word_coordinates word =
         Ok {| box_x := field d "Left"; box_y := field d "Top";
               box_width := field d "Width"; box_height := field d "Height";
               box_x2 := x2; box_y2 := y2 |}) /\
  (forall d key, lookup key d = None -> field d key = PyInt 0) /\
  ((forall d, word <> PyDict d) \/
   (exists d, word = PyDict d /\
      (~ addable (field d "Left") (field d "Width") \/
       ~ addable (field d "Top") (field d "Height"))) ->
   _parse_word_coordinates word = Ok zero_box).
Proof.
  destruct (parse_word_coordinates_cases word)
    as [(d & x2 & y2 & Hd & Hx & Hy & Hbox) | [Hzero Hwhy]].
  - split; [| split; [| split]].
    + exists (box_of_fields d x2 y2). simpl.
      repeat split; auto; intros Hn Hmix; eapply add_number_inv; eauto.
    + intros d' Hd' _ _. rewrite Hd in Hd'. inversion Hd'; subst d'.
      exists x2, y2. auto.
    + intros d' key Hnone. unfold field. rewrite Hnone. reflexivity.
    + intros [Hnot | (d' & Hd' & [Hno | Hno])].
      * exfalso. apply (Hnot d). exact Hd.
      * rewrite Hd in Hd'. inversion Hd'; subst d'.
        exfalso. apply Hno. apply add_addable. eauto.
      * rewrite Hd in Hd'. inversion Hd'; subst d'.
        exfalso. apply Hno. apply add_addable. eauto.
  - split; [| split; [| split]].
    + exists zero_box. simpl.
      repeat split; auto; intros Hn Hmix; eapply add_number_inv; eauto;
        reflexivity.
    + intros d Hd Hx Hy. exfalso.
      apply add_addable in Hx, Hy. destruct Hx as [x2 Hx]. destruct Hy as [y2 Hy].
      destruct Hwhy as [Hnot | (d' & Hd' & [[e He] | [e He]])].
      * apply (Hnot d). exact Hd.
      * rewrite Hd in Hd'. inversion Hd'; subst d'. congruence.
      * rewrite Hd in Hd'. inversion Hd'; subst d'. congruence.
    + intros d' key Hnone. unfold field. rewrite Hnone. reflexivity.
    + intros _. exact Hzero.
Qed.

Lemma parse_word_coordinates_never_raises_witness :
  _parse_word_coordinates
    (PyDict [("WordText", PyStr "Hello"); ("Left", PyInt 10);
             ("Height", PyInt 8); ("Width", PyFloat (41 # 2))]) =
    Ok {| box_x := PyInt 10; box_y := PyInt 0;
          box_width := PyFloat (41 # 2); box_height := PyInt 8;
          box_x2 := PyFloat (61 # 2); box_y2 := PyInt 8 |} /\
  _parse_word_coordinates
    (PyDict [("WordText", PyStr "Hello"); ("Left", PyNone);
             ("Width", PyInt 20)]) = Ok zero_box /\
  _parse_word_coordinates
    (PyDict [("Left", PyInt (10 ^ 400)); ("Width", PyFloat 1)]) = Ok zero_box /\
  _parse_word_coordinates (PyStr "Hello") = Ok zero_box.
Proof.
  split; [| split; [| split]].
  - destruct (parse_word_coordinates_never_raises
                (PyDict [("WordText", PyStr "Hello"); ("Left", PyInt 10);
                         ("Height", PyInt 8); ("Width", PyFloat (41 # 2))]))
      as (_ & H & _).
    destruct (H _ Logic.eq_refl) as (x2 & y2 & Hx & Hy & Hbox).
    + apply add_addable. eexists. vm_compute. reflexivity.
    + apply add_addable. eexists. vm_compute. reflexivity.
    + rewrite Hbox. vm_compute in Hx, Hy.
      inversion Hx; inversion Hy; subst. vm_compute. reflexivity.
  - destruct (parse_word_coordinates_never_raises
                (PyDict [("WordText", PyStr "Hello"); ("Left", PyNone);
                         ("Width", PyInt 20)]))
      as (_ & _ & _ & H).
    apply H. right. eexists. split; [reflexivity |].
    left. intros Ha. apply add_addable in Ha. destruct Ha as [s Hs].
    discriminate.
  - destruct (parse_word_coordinates_never_raises
                (PyDict [("Left", PyInt (10 ^ 400)); ("Width", PyFloat 1)]))
      as (_ & _ & _ & H).
    apply H. right. eexists. split; [reflexivity |].
    left. intros Ha. apply add_addable in Ha. destruct Ha as [s Hs].
    vm_compute in Hs. discriminate.
  - destruct (parse_word_coordinates_never_raises (PyStr "Hello"))
      as (_ & _ & _ & H).
    apply H. left. intros d. discriminate.
Defined.

(** ** The two loops *)

Lemma sum_confidences_app ws ws' :
  sum_confidences (ws ++ ws') == sum_confidences ws + sum_confidences ws'.
Proof.
  induction ws as [| r ws IH]; simpl.
  - lra.
  - rewrite IH. lra.
Qed.

Lemma float_iadd_Ok total v total' :
  float_iadd total v = Ok total' ->
  is_number v /\ total' = total + number v.
Proof.
  unfold float_iadd, number. destruct (num_of v) as [q |] eqn:E; intros H.
  - destruct (to_float v) as [y | e]; [| discriminate].
    inversion H. split; [exists q; exact E | reflexivity].
  - discriminate.
Qed.

(** One turn of the word loop appends one word, the same one, to both
    lists. *)
Lemma process_word_Ok line_idx st line_words word st' line_words' :
  process_word line_idx st line_words word = Ok (st', line_words') ->
  exists r,
    words st' = (words st ++ [r])%list /\
    line_words' = (line_words ++ [r])%list /\
    lines st' = lines st /\
    word_count st' = S (word_count st) /\
    next_id st' = S (next_id st) /\
    oid r = next_id st /\
    total_confidence st' = total_confidence st + number (w_confidence (oval r)) /\
    get word "Confidence" (PyInt 0) = Ok (w_confidence (oval r)) /\
    built_word line_idx r.
Proof.
  unfold process_word. intros H.
  bind_inv H. bind_inv H. bind_inv H. bind_inv H.
  inversion H; subst; clear H.
  destruct (float_iadd_Ok _ _ _ Ha2) as [Hnum Htot].
  eexists. simpl. repeat split; try reflexivity; eauto.
Qed.

Lemma process_words_Ok line_idx ws : forall st line_words st' line_words',
  process_words line_idx st line_words ws = Ok (st', line_words') ->
  exists new,
    words st' = (words st ++ new)%list /\
    line_words' = (line_words ++ new)%list /\
    lines st' = lines st /\
    word_count st' = (word_count st + List.length new)%nat /\
    next_id st' = (next_id st + List.length new)%nat /\
    map oid new = seq (next_id st) (List.length new) /\
    total_confidence st' == total_confidence st + sum_confidences new /\
    List.length new = List.length ws /\
    Forall (built_word line_idx) new.
Proof.
  induction ws as [| word ws IH]; intros st lw st' lw' H; simpl in H.
  - inversion H; subst. exists []. rewrite !app_nil_r, !Nat.add_0_r. simpl.
    repeat split; auto. lra.
  - bind_inv H. destruct a as [st1 lw1].
    destruct (process_word_Ok _ _ _ _ _ _ Ha)
      as (r & Hw & Hlw & Hl & Hc & Hn & Hid & Ht & _ & Hb).
    destruct (IH _ _ _ _ H)
      as (new & Hw' & Hlw' & Hl' & Hc' & Hn' & Hids & Ht' & Hlen & Hall).
    exists (r :: new). simpl.
    rewrite Hw', Hw, Hlw', Hlw, Hl', Hl, Hc', Hc, Hn', Hn, <- !app_assoc.
    simpl. repeat split; auto; try lia.
    + rewrite Hid. f_equal. rewrite Hids, Hn. reflexivity.
    + rewrite Ht', Ht. lra.
Qed.

Lemma process_line_Ok line_idx st line st' :
  process_line line_idx st line = Ok st' ->
  exists l,
    lines st' = (lines st ++ [l])%list /\
    words st' = (words st ++ l_words l)%list /\
    l_lineIndex l = line_idx /\
    built_line l /\
    word_count st' = (word_count st + List.length (l_words l))%nat /\
    next_id st' = (next_id st + List.length (l_words l))%nat /\
    map oid (l_words l) = seq (next_id st) (List.length (l_words l)) /\
    total_confidence st' == total_confidence st + sum_confidences (l_words l).
Proof.
  unfold process_line. intros H.
  bind_inv H. bind_inv H. bind_inv H. bind_inv H. destruct a2 as [st1 lw].
  bind_inv H. inversion H; subst; clear H.
  destruct (process_words_Ok _ _ _ _ _ _ Ha2)
    as (new & Hw & Hlw & Hl & Hc & Hn & Hids & Ht & _ & Hall).
  simpl in Hlw. subst lw.
  eexists. simpl. rewrite Hl.
  split; [reflexivity |]. simpl.
  repeat split; auto.
Qed.

Lemma all_words_app ls ls' :
  all_words (ls ++ ls') = (all_words ls ++ all_words ls')%list.
Proof. unfold all_words. rewrite map_app, concat_app. reflexivity. Qed.

Lemma process_lines_Ok ls : forall line_idx st st',
  process_lines line_idx st ls = Ok st' ->
  exists new,
    lines st' = (lines st ++ new)%list /\
    words st' = (words st ++ all_words new)%list /\
    map l_lineIndex new = seq line_idx (List.length new) /\
    List.length new = List.length ls /\
    Forall built_line new /\
    word_count st' = (word_count st + List.length (all_words new))%nat /\
    next_id st' = (next_id st + List.length (all_words new))%nat /\
    map oid (all_words new) = seq (next_id st) (List.length (all_words new)) /\
    total_confidence st' == total_confidence st + sum_confidences (all_words new).
Proof.
  induction ls as [| line ls IH]; intros idx st st' H; simpl in H.
  - inversion H; subst. exists []. unfold all_words. simpl.
    rewrite !app_nil_r, !Nat.add_0_r. repeat split; auto. lra.
  - bind_inv H.
    destruct (process_line_Ok _ _ _ _ Ha)
      as (l & Hl & Hw & Hidx & Hb & Hc & Hn & Hids & Ht).
    destruct (IH _ _ _ H)
      as (new & Hl' & Hw' & Hidx' & Hlen & Hall & Hc' & Hn' & Hids' & Ht').
    exists (l :: new).
    change (all_words (l :: new)) with (l_words l ++ all_words new)%list.
    rewrite Hl', Hl, Hw', Hw, Hc', Hc, Hn', Hn, <- !app_assoc, !length_app.
    simpl. repeat split; auto; try lia.
    + rewrite Hidx, Hidx'. reflexivity.
    + rewrite map_app, Hids, Hids', Hn, seq_app. reflexivity.
    + rewrite Ht', Ht, sum_confidences_app. lra.
Qed.

(** What a successful normalisation went through: a dict answer with the
    error flag unset and a non-empty result list, and the two loops run
    to their end from the initial locals. *)
Lemma normalise_Success result_ language text_ confidence_ language_ words_ lines_ :
  normalise result_ language =
    Ok (Success text_ confidence_ language_ words_ lines_) ->
  exists ls st,
    process_lines 0 initial_locals ls = Ok st /\
    words_ = words st /\ lines_ = lines st /\
    confidence_ = avg_confidence st / 100 /\
    language_ = language.
Proof.
  unfold normalise. intros H.
  bind_inv H.
  destruct (truthy a).
  - bind_inv H. discriminate.
  - bind_inv H. destruct (negb (truthy a0)); [discriminate |].
    unfold process_parsed_results in H.
    do 7 bind_inv H. inversion H; subst.
    exists a6, a7. auto.
Qed.

(** The shape of every successful result. *)
Lemma success_shape result_ language text_ confidence_ language_ words_ lines_ :
  normalise result_ language =
    Ok (Success text_ confidence_ language_ words_ lines_) ->
  words_ = all_words lines_ /\
  map l_lineIndex lines_ = seq 0 (List.length lines_) /\
  Forall built_line lines_ /\
  map oid words_ = seq 0 (List.length words_) /\
  confidence_ ==
    (if (0 <? List.length words_)%nat
     then sum_confidences words_ / Q_of_nat (List.length words_)
     else 0) / 100.
Proof.
  intros H. destruct (normalise_Success _ _ _ _ _ _ _ H)
    as (ls & st & Hrun & -> & -> & -> & _).
  destruct (process_lines_Ok _ _ _ _ Hrun)
    as (new & Hl & Hw & Hidx & _ & Hall & Hc & Hn & Hids & Ht).
  simpl in *. clear H Hrun. subst new. rewrite Hw.
  repeat split; auto.
  unfold avg_confidence. rewrite Hc.
  destruct (0 <? List.length (all_words (lines st)))%nat; [| reflexivity].
  rewrite Ht. unfold Qdiv. lra.
Qed.

(** ** Line boxes as unions (C1) *)

Lemma built_lines_of_result result_ language :
  Forall built_line (result_lines (normalise result_ language)).
Proof.
  destruct (normalise result_ language) as [[t c la ws ls | m] | e] eqn:E;
    simpl; try constructor.
  apply (success_shape _ _ _ _ _ _ _ E).
Qed.

Ltac evaluate t :=
  let v := eval vm_compute in t in
  replace t with v by (vm_compute; reflexivity).




(** The overflow is no idle case: on a line with a word at Left = 10^400
    and a word at Left = 0.5 every corner is a number, and the line box
    is the all-zero box. *)
Lemma far_apart_line_box :
  exists l,
    result_lines (normalise Examples.far_apart "eng") = [l] /\
    (forall b, In b (boxes_of (l_words l)) -> numeric_corners b) /\
    l_boundingBox l = zero_box.
Proof.
  eexists. split; [vm_compute; reflexivity |]. split; [| reflexivity].
  intros b Hb. simpl in Hb.
  destruct Hb as [<- | [<- | []]]; repeat split; eexists; reflexivity.
Qed.

(** ** The bounding-box invariant (C4) *)

Lemma in_all_words r ls :
  In r (all_words ls) <-> exists l, In l ls /\ In r (l_words l).
Proof.
  unfold all_words. rewrite in_concat. split.
  - intros (ws & Hws & Hr). apply in_map_iff in Hws.
    destruct Hws as (l & <- & Hl). eauto.
  - intros (l & Hl & Hr). exists (l_words l). split; [| exact Hr].
    apply in_map. exact Hl.
Qed.

Lemma result_words_of_lines result_ language :
  result_words (normalise result_ language) =
  all_words (result_lines (normalise result_ language)).
Proof.
  destruct (normalise result_ language) as [[t c la ws ls | m] | e] eqn:E;
    simpl; try reflexivity.
  apply (success_shape _ _ _ _ _ _ _ E).
Qed.





(** ** The average confidence (C2) *)

Lemma Q_of_nat_S n : Q_of_nat (S n) == Q_of_nat n + 1.
Proof.
  unfold Q_of_nat. rewrite Nat2Z.inj_succ. unfold Z.succ.
  rewrite inject_Z_plus. reflexivity.
Qed.

Lemma Q_of_nat_pos n : (0 < n)%nat -> 0 < Q_of_nat n.
Proof.
  intros H. unfold Q_of_nat. change 0 with (inject_Z 0).
  rewrite <- Zlt_Qlt. lia.
Qed.

Lemma sum_confidences_bounds ws :
  (forall r, In r ws -> 0 <= number (w_confidence (oval r)) <= 100) ->
  0 <= sum_confidences ws <= 100 * Q_of_nat (List.length ws).
Proof.
  induction ws as [| r ws IH]; intros H.
  - simpl. unfold Q_of_nat. simpl. change (inject_Z 0) with 0. lra.
  - assert (Hr : 0 <= number (w_confidence (oval r)) <= 100)
      by (apply H; left; reflexivity).
    assert (Hws : 0 <= sum_confidences ws <= 100 * Q_of_nat (List.length ws))
      by (apply IH; intros r' Hr'; apply H; right; exact Hr').
    cbn [sum_confidences List.length]. rewrite Q_of_nat_S. lra.
Qed.

Lemma scaled_average_bounds s n :
  (0 < n)%nat -> 0 <= s <= 100 * Q_of_nat n ->
  0 <= s / Q_of_nat n / 100 <= 1.
Proof.
  intros Hn [H0 H100]. pose proof (Q_of_nat_pos n Hn) as Hpos.
  split.
  - apply Qle_shift_div_l; [lra |]. apply Qle_shift_div_l; [exact Hpos |]. lra.
  - apply Qle_shift_div_r; [lra |]. apply Qle_shift_div_r; [exact Hpos |]. lra.
Qed.

Lemma result_confidence_of_words result_ language :
  is_success (normalise result_ language) ->
  result_confidence (normalise result_ language) ==
    (if (0 <? List.length (result_words (normalise result_ language)))%nat
     then sum_confidences (result_words (normalise result_ language))
          / Q_of_nat (List.length (result_words (normalise result_ language)))
     else 0) / 100.
Proof.
  destruct (normalise result_ language) as [[t c la ws ls | m] | e] eqn:E;
    simpl; intros H; try contradiction.
  apply (success_shape _ _ _ _ _ _ _ E).
Qed.

Lemma built_words_of_result result_ language r :
  In r (result_words (normalise result_ language)) ->
  exists l,
    In l (result_lines (normalise result_ language)) /\
    In r (l_words l) /\ built_word (l_lineIndex l) r.
Proof.
  intros Hr. rewrite result_words_of_lines in Hr. apply in_all_words in Hr.
  destruct Hr as (l & Hl & Hr). exists l. split; [exact Hl | split; [exact Hr |]].
  pose proof (built_lines_of_result result_ language) as Hall.
  rewrite Forall_forall in Hall. destruct (Hall l Hl) as [_ Hbuilt].
  rewrite Forall_forall in Hbuilt. exact (Hbuilt r Hr).
Qed.

(** C2.  In every successful normalisation the word confidences are
    numbers, and the result's confidence is their sum divided by the
    word count, divided by 100; it is 0 when there is no word.  When
    every word confidence lies in [0, 100], the confidence lies in
    [0, 1]. *)
Theorem confidence_is_scaled_average (result_ : pyval) (language : string) :
  is_success (normalise result_ language) ->
  let ws := result_words (normalise result_ language) in
  let c := result_confidence (normalise result_ language) in
  (forall r, In r ws -> is_number (w_confidence (oval r))) /\
  (ws <> [] -> c == sum_confidences ws / Q_of_nat (List.length ws) / 100) /\
  (ws = [] -> c == 0) /\
  ((forall r, In r ws -> 0 <= number (w_confidence (oval r)) <= 100) ->
   0 <= c <= 1).
Proof.
  intros Hs ws c.
  pose proof (result_confidence_of_words result_ language Hs) as Hc.
  fold ws in Hc. fold c in Hc.
  split; [| split; [| split]].
  - intros r Hr. destruct (built_words_of_result _ _ r Hr) as (l & _ & _ & Hb).
    apply Hb.
  - intros Hne. rewrite Hc. destruct ws; [congruence | reflexivity].
  - intros Hnil. rewrite Hc, Hnil. simpl. reflexivity.
  - intros Hrange. rewrite Hc.
    destruct ws as [| r ws'] eqn:Ews.
    + simpl. split; [apply Qle_shift_div_l; lra | apply Qle_shift_div_r; lra].
    + change (0 <? List.length (r :: ws'))%nat with true. cbv iota.
      apply scaled_average_bounds; [simpl; lia |].
      apply sum_confidences_bounds. exact Hrange.
Qed.

Lemma confidence_is_scaled_average_witness :
  is_success (normalise Examples.two_lines "eng") /\
  result_confidence (normalise Examples.two_lines "eng") == (90 + 70 + 80) / 3 / 100 /\
  0 <= result_confidence (normalise Examples.two_lines "eng") <= 1.
Proof.
  assert (Hs : is_success (normalise Examples.two_lines "eng"))
    by (vm_compute; exact I).
  destruct (confidence_is_scaled_average Examples.two_lines "eng" Hs)
    as (_ & Havg & _ & Hrange).
  split; [exact Hs | split].
  - rewrite Havg.
    + vm_compute. reflexivity.
    + vm_compute. discriminate.
  - apply Hrange.
    evaluate (result_words (normalise Examples.two_lines "eng")).
    intros r [<- | [<- | [<- | []]]]; vm_compute; split; discriminate.
Defined.

(** ** Indices and the flat word list (C8) *)

Lemma nth_error_index (ls : list line_data) :
  forall base,
  map l_lineIndex ls = seq base (List.length ls) ->
  forall i l, nth_error ls i = Some l -> l_lineIndex l = (base + i)%nat.
Proof.
  induction ls as [| l0 ls IH]; intros base H i l Hi.
  - destruct i; discriminate.
  - simpl in H. inversion H as [[H0 Hrest]].
    destruct i as [| i]; simpl in Hi.
    + inversion Hi; subst. lia.
    + rewrite H0 in Hrest. rewrite (IH (S base) Hrest i l Hi). lia.
Qed.

(** C8.  In every successful normalisation the i-th line has
    lineIndex i, every word carries the lineIndex of the line holding
    it, and the flat word list is the concatenation of the lines' word
    lists in line order: the same word dicts (the k-th flat word is the
    k-th dict created, and so is the word at that place in its line),
    each of them once. *)
Theorem indices_follow_provider_order (result_ : pyval) (language : string) :
  is_success (normalise result_ language) ->
  let ws := result_words (normalise result_ language) in
  let ls := result_lines (normalise result_ language) in
  (forall i l, nth_error ls i = Some l -> l_lineIndex l = i) /\
  (forall l r, In l ls -> In r (l_words l) ->
     w_lineIndex (oval r) = l_lineIndex l) /\
  ws = List.concat (map l_words ls) /\
  map oid ws = seq 0 (List.length ws) /\
  NoDup (map oid ws).
Proof.
  intros Hs ws ls.
  destruct (normalise result_ language) as [[t c la ws0 ls0 | m] | e] eqn:E;
    simpl in Hs; try contradiction.
  simpl in ws, ls. subst ws ls.
  destruct (success_shape _ _ _ _ _ _ _ E) as (Hw & Hidx & Hall & Hids & _).
  split; [| split; [| split; [| split]]].
  - intros i l Hi. apply (nth_error_index ls0 0%nat Hidx i l Hi).
  - intros l r Hl Hr. rewrite Forall_forall in Hall.
    destruct (Hall l Hl) as [_ Hbuilt]. rewrite Forall_forall in Hbuilt.
    apply (Hbuilt r Hr).
  - exact Hw.
  - exact Hids.
  - rewrite Hids. apply seq_NoDup.
Qed.

Lemma indices_follow_provider_order_witness :
  is_success (normalise Examples.two_lines "eng") /\
  map l_lineIndex (result_lines (normalise Examples.two_lines "eng")) = [0; 1]%nat /\
  result_words (normalise Examples.two_lines "eng") =
    List.concat (map l_words (result_lines (normalise Examples.two_lines "eng"))) /\
  map oid (result_words (normalise Examples.two_lines "eng")) = [0; 1; 2]%nat.
Proof.
  assert (Hs : is_success (normalise Examples.two_lines "eng"))
    by (vm_compute; exact I).
  destruct (indices_follow_provider_order Examples.two_lines "eng" Hs)
    as (_ & _ & Hflat & Hids & _).
  split; [exact Hs | split; [vm_compute; reflexivity | split; [exact Hflat |]]].
  rewrite Hids. vm_compute. reflexivity.
Defined.

(** ** The early returns (C6) *)

Lemma process_parsed_results_Ok parsed_results language r :
  process_parsed_results parsed_results language = Ok r -> is_success (Ok r).
Proof.
  unfold process_parsed_results. intros H.
  do 7 bind_inv H. inversion H. exact I.
Qed.

(** C6.  On the provider's answer (a dict) the normaliser returns
    early, before it looks at any overlay, in exactly two cases.  When
    the processing-error flag is set it returns a failure carrying the
    provider's error message ("OCR API error" when there is none).
    Otherwise, when the parsed-result list is empty (or missing, or
    otherwise false) it returns the failure "No text found in image".
    A failure comes from nowhere else: past the two tests the overlay
    processing either succeeds or raises. *)
Theorem normalise_returns_early (result_ : pyval) (language : string) :
  (forall d, result_ = PyDict d -> truthy (errored_flag d) = true ->
     normalise result_ language = Ok (Failure (provider_error_message d))) /\
  (forall d, result_ = PyDict d -> truthy (errored_flag d) = false ->
     lookup "ParsedResults" d = Some (PyList []) \/
     lookup "ParsedResults" d = None \/
     truthy (parsed_results_of d) = false ->
     normalise result_ language = Ok (Failure (PyStr "No text found in image"))) /\
  (forall d, result_ = PyDict d -> truthy (errored_flag d) = false ->
     truthy (parsed_results_of d) = true ->
     normalise result_ language =
       process_parsed_results (parsed_results_of d) language) /\
  (forall m,
     normalise result_ language = Ok (Failure m) <->
     exists d, result_ = PyDict d /\
       ((truthy (errored_flag d) = true /\ m = provider_error_message d) \/
        (truthy (errored_flag d) = false /\
         truthy (parsed_results_of d) = false /\
         m = PyStr "No text found in image"))).
Proof.
  assert (Hset : forall d, truthy (errored_flag d) = true ->
            normalise (PyDict d) language = Ok (Failure (provider_error_message d))).
  { intros d Hf. unfold normalise, get. cbn [bind].
    fold (errored_flag d). rewrite Hf. reflexivity. }
  assert (Hempty : forall d, truthy (errored_flag d) = false ->
            truthy (parsed_results_of d) = false ->
            normalise (PyDict d) language =
              Ok (Failure (PyStr "No text found in image"))).
  { intros d Hf Hp. unfold normalise, get. cbn [bind].
    fold (errored_flag d). rewrite Hf. fold (parsed_results_of d).
    rewrite Hp. reflexivity. }
  assert (Hrest : forall d, truthy (errored_flag d) = false ->
            truthy (parsed_results_of d) = true ->
            normalise (PyDict d) language =
              process_parsed_results (parsed_results_of d) language).
  { intros d Hf Hp. unfold normalise, get. cbn [bind].
    fold (errored_flag d). rewrite Hf. fold (parsed_results_of d).
    rewrite Hp. reflexivity. }
  split; [| split; [| split]].
  - intros d -> Hf. apply Hset. exact Hf.
  - intros d -> Hf Hp. apply Hempty; [exact Hf |].
    unfold parsed_results_of.
    destruct Hp as [-> | [-> | Hp]]; [reflexivity | reflexivity | exact Hp].
  - intros d -> Hf Hp. apply Hrest; assumption.
  - intros m. split.
    + intros H. destruct result_ as [| b | z | q | s | l | d];
        try (unfold normalise in H; simpl in H; discriminate).
      exists d. split; [reflexivity |].
      destruct (truthy (errored_flag d)) eqn:Hf.
      * rewrite (Hset d Hf) in H. inversion H. left. auto.
      * destruct (truthy (parsed_results_of d)) eqn:Hp.
        -- rewrite (Hrest d Hf Hp) in H.
           apply process_parsed_results_Ok in H. simpl in H. contradiction.
        -- rewrite (Hempty d Hf Hp) in H. inversion H. right. auto.
    + intros (d & -> & [[Hf ->] | (Hf & Hp & ->)]).
      * apply Hset. exact Hf.
      * apply Hempty; assumption.
Qed.

Lemma normalise_returns_early_witness :
  normalise Examples.bad_image "eng" = Ok (Failure (PyStr "Bad image")) /\
  normalise (PyDict [("ParsedResults", PyList [])]) "eng" =
    Ok (Failure (PyStr "No text found in image")).
Proof.
  split.
  - destruct (normalise_returns_early Examples.bad_image "eng") as (H & _).
    apply (H _ Logic.eq_refl). reflexivity.
  - destruct (normalise_returns_early (PyDict [("ParsedResults", PyList [])]) "eng")
      as (_ & H & _).
    apply (H _ Logic.eq_refl); [reflexivity | left; reflexivity].
Defined.

(** ** Failures of the provider call (C5) *)

Lemma api_handler_returns e : exists m, api_handler e = Ok (Failure (PyStr m)).
Proof.
  destruct e as [m | c m | m]; simpl.
  - eauto.
  - destruct (c =? 429)%Z; [eauto |]. destruct (c =? 413)%Z; eauto.
  - eauto.
Qed.

(** [process_ocr_api] always returns a dict. *)
Lemma process_ocr_api_returns w image_data language calls0 :
  exists r, fst (process_ocr_api w image_data language calls0) = Ok r.
Proof.
  unfold process_ocr_api. destruct (encode_jpeg w image_data) as [jpeg | e].
  - simpl. destruct (send w (api_request jpeg language)) as [result_ | e]; simpl.
    + destruct (normalise result_ language) as [r | e]; simpl; [eauto |].
      destruct (api_handler_returns e) as [m Hm]. rewrite Hm. eauto.
    + destruct (api_handler_returns e) as [m Hm]. rewrite Hm. eauto.
  - simpl. destruct (api_handler_returns e) as [m Hm]. rewrite Hm. eauto.
Qed.

(** C5.  When the provider call raises, [process_ocr_api] does not: it
    returns a failure dict whose message depends on the exception alone.
    A timeout (the request was sent with a 60 s limit) gives the
    timed-out message, HTTP 429 the rate-limit message, HTTP 413 the
    too-large message, any other HTTP status "OCR API error: " followed
    by the status code, and any other exception "OCR API call failed: "
    followed by its text. *)
Theorem provider_failure_messages (w : world) (image_data jpeg : list Byte.byte)
    (language : string) (calls0 : list request) (e : exn) :
  encode_jpeg w image_data = Ok jpeg ->
  send w (api_request jpeg language) = Raise e ->
  timeout (api_request jpeg language) == 60 /\
  exists m,
    fst (process_ocr_api w image_data language calls0) = Ok (Failure (PyStr m)) /\
    match e with
    | TimeoutException _ =>
        m = "OCR API request timed out. Try with a smaller image or check your internet connection."
    | HTTPStatusError 429 _ =>
        m = "OCR API rate limit exceeded. Please wait a moment and try again."
    | HTTPStatusError 413 _ =>
        m = "Image too large for OCR API. Please use a smaller image."
    | HTTPStatusError status_code _ =>
        m = "OCR API error: " ++ format_int status_code
    | Exception_ message =>
        m = "OCR API call failed: " ++ message
    end.
Proof.
  intros Hjpeg Hsend. split; [reflexivity |].
  unfold process_ocr_api. rewrite Hjpeg. cbn [fst]. rewrite Hsend. cbn [bind try_].
  destruct e as [m | c m | m]; simpl.
  - eexists. split; reflexivity.
  - destruct (c =? 429)%Z eqn:E429.
    + apply Z.eqb_eq in E429. subst c. eexists. split; reflexivity.
    + destruct (c =? 413)%Z eqn:E413.
      * apply Z.eqb_eq in E413. subst c. eexists. split; reflexivity.
      * eexists. split; [reflexivity |].
        apply Z.eqb_neq in E429. apply Z.eqb_neq in E413.
        destruct c as [| c | c]; try reflexivity.
        do 9 (destruct c as [c | c |]; try reflexivity); congruence.
  - eexists. split; reflexivity.
Qed.

Lemma provider_failure_messages_witness :
  fst (process_ocr_api
         (Examples.world_of (Raise (HTTPStatusError 500 "Server error")))
         Examples.small_image "eng" []) =
    Ok (Failure (PyStr "OCR API error: 500")).
Proof.
  destruct (provider_failure_messages
              (Examples.world_of (Raise (HTTPStatusError 500 "Server error")))
              Examples.small_image Examples.small_image "eng" []
              (HTTPStatusError 500 "Server error")
              Logic.eq_refl Logic.eq_refl) as (_ & m & Hm & Hmsg).
  simpl in Hmsg. rewrite Hmsg in Hm. exact Hm.
Defined.

(** ** The size limit (C7) *)

Lemma len_large_image : Relay.len Examples.large_image = 1048577%Z.
Proof.
  unfold Relay.len, Examples.large_image.
  rewrite repeat_length, N_nat_Z. reflexivity.
Defined.

(** C7.  A request whose image is larger than 1 MiB is answered with
    an [HTTPException] of status 413, and the list of requests sent to
    the provider is what it was: the provider is not called.  Whenever
    the handler does send a request to the provider, the image was read
    and was at most 1 MiB long. *)
Theorem oversized_image_is_rejected (w : world) (image : option Relay.UploadFile)
    (language : string) (calls0 : list request) :
  (forall file image_data,
     image = Some file -> Relay.read file = Ok image_data ->
     (1024 * 1024 < Relay.len image_data)%Z ->
     Relay.process_ocr w image language calls0 =
       (Relay.Throw
          (Relay.HTTPException 413
             ("Image too large: " ++ format_int (Relay.len image_data)
              ++ " bytes (max: 1MB)")),
        calls0)) /\
  (snd (Relay.process_ocr w image language calls0) <> calls0 ->
   exists file image_data,
     image = Some file /\ Relay.read file = Ok image_data /\
     (Relay.len image_data <= 1024 * 1024)%Z).
Proof.
  split.
  - intros file image_data -> Hread Hlarge.
    unfold Relay.process_ocr, Relay.process_ocr_body. rewrite Hread.
    apply Z.ltb_lt in Hlarge. rewrite Hlarge. reflexivity.
  - intros Hcalls. destruct image as [file |].
    + destruct (Relay.read file) as [image_data | e] eqn:Hread.
      * exists file, image_data. split; [reflexivity | split; [exact Hread |]].
        destruct (1024 * 1024 <? Relay.len image_data)%Z eqn:Hlarge.
        -- exfalso. apply Hcalls.
           unfold Relay.process_ocr, Relay.process_ocr_body.
           rewrite Hread, Hlarge. reflexivity.
        -- apply Z.ltb_ge in Hlarge. exact Hlarge.
      * exfalso. apply Hcalls.
        unfold Relay.process_ocr, Relay.process_ocr_body.
        rewrite Hread. reflexivity.
    + exfalso. apply Hcalls. reflexivity.
Qed.

Lemma oversized_image_is_rejected_witness :
  (1024 * 1024 < Relay.len Examples.large_image)%Z /\
  exists detail,
    Relay.process_ocr (Examples.world_of (Ok Examples.two_lines))
      (Some Examples.large_upload) "eng" [] =
    (Relay.Throw (Relay.HTTPException 413 detail), []).
Proof.
  assert (Hlarge : (1024 * 1024 < Relay.len Examples.large_image)%Z)
    by (rewrite len_large_image; reflexivity).
  split; [exact Hlarge |].
  destruct (oversized_image_is_rejected
              (Examples.world_of (Ok Examples.two_lines))
              (Some Examples.large_upload) "eng" []) as [H _].
  eexists.
  exact (H Examples.large_upload Examples.large_image
           Logic.eq_refl Logic.eq_refl Hlarge).
Defined.

(** ** The catch-all path (C9) *)

(** The response of the [except Exception] clause. *)
Lemma process_ocr_catch_all w image language calls0 e fx :
  Relay.process_ocr_body w image language (time w 0) calls0 =
    (Relay.Throw (Relay.Other e), fx) ->
  Relay.process_ocr w image language calls0 =
    (Relay.Return
       {| Relay.success := false;
          Relay.text := None;
          Relay.confidence := None;
          Relay.error_message := Some ("Internal server error: " ++ str e);
          Relay.processing_time_ms :=
            (time w (Relay.readings fx) - time w 0) * 1000;
          Relay.image_size_bytes := 0;
          Relay.language_used := language;
          Relay.words := None;
          Relay.lines := None |},
     Relay.calls fx).
Proof.
  intros H. unfold Relay.process_ocr. rewrite H. reflexivity.
Qed.

Lemma process_ocr_body_throws w image language start calls0 status detail fx :
  Relay.process_ocr_body w image language start calls0 =
    (Relay.Throw (Relay.HTTPException status detail), fx) ->
  (status = 400 \/ status = 413)%Z.
Proof.
  unfold Relay.process_ocr_body. intros H.
  destruct image as [file |]; [| inversion H; auto].
  destruct (Relay.read file) as [image_data | e]; [| discriminate].
  destruct (1024 * 1024 <? Relay.len image_data)%Z; [inversion H; auto |].
  destruct (process_ocr_api w image_data language calls0) as [[r | e] calls1];
    [| discriminate].
  destruct r as [t c la ws ls | m]; [discriminate |].
  destruct (Relay.validate_optional_str w m); discriminate.
Qed.

(** The two places a fault can come from: reading the upload, and
    building the failure response around an error that is no string. *)
Lemma catch_all_sources w image language start calls0 e fx :
  Relay.process_ocr_body w image language start calls0 =
    (Relay.Throw (Relay.Other e), fx) ->
  (exists file, image = Some file /\ Relay.read file = Raise e) \/
  (exists file image_data error,
     image = Some file /\ Relay.read file = Ok image_data /\
     fst (process_ocr_api w image_data language calls0) = Ok (Failure error) /\
     Relay.validate_optional_str w error = Raise e).
Proof.
  unfold Relay.process_ocr_body. intros H.
  destruct image as [file |]; [| discriminate].
  destruct (Relay.read file) as [image_data | e0] eqn:Hread.
  - right. destruct (1024 * 1024 <? Relay.len image_data)%Z; [discriminate |].
    destruct (process_ocr_api_returns w image_data language calls0) as [r Hr].
    destruct (process_ocr_api w image_data language calls0)
      as [r0 calls1] eqn:Hapi.
    simpl in Hr. subst r0.
    destruct r as [t c la ws ls | error]; [discriminate |].
    destruct (Relay.validate_optional_str w error) as [m | e1] eqn:Hv;
      [discriminate |].
    inversion H; subst. exists file, image_data, error.
    rewrite Hapi. auto.
  - left. inversion H; subst. exists file. auto.
Qed.

(** C9, as stated, fails when the fault comes after the image was read:
    the provider's error answer carries a list for [ErrorMessage], the
    response model rejects it, and the catch-all response reports 0
    bytes for an upload of 3 bytes that was read. *)
Lemma internal_error_reports_no_size :
  Relay.read Examples.small_upload = Ok Examples.small_image /\
  Relay.len Examples.small_image = 3%Z /\
  (exists e fx,
     Relay.process_ocr_body (Examples.world_of (Ok Examples.errored))
       (Some Examples.small_upload) "eng"
       (time (Examples.world_of (Ok Examples.errored)) 0) [] =
     (Relay.Throw (Relay.Other e), fx)) /\
  ~ (forall response calls1,
       Relay.process_ocr (Examples.world_of (Ok Examples.errored))
         (Some Examples.small_upload) "eng" [] =
       (Relay.Return response, calls1) ->
       Relay.image_size_bytes response = Relay.len Examples.small_image).
Proof.
  split; [reflexivity | split; [reflexivity | split]].
  - eexists. eexists. vm_compute. reflexivity.
  - intros H.
    assert (E : exists response calls1,
               Relay.process_ocr (Examples.world_of (Ok Examples.errored))
                 (Some Examples.small_upload) "eng" [] =
               (Relay.Return response, calls1) /\
               Relay.image_size_bytes response = 0%Z).
    { eexists. eexists. split; vm_compute; reflexivity. }
    destruct E as (response & calls1 & E & Hzero).
    specialize (H response calls1 E). rewrite Hzero in H.
    vm_compute in H. discriminate.
Qed.

(** C9 (amended).  A request ends in a response or in one of the two
    validation rejections (status 400 or 413), never in another
    exception.  When the body of the handler raises anything else, the
    response has success = false, the message "Internal server error: "
    followed by the exception's text, processing_time_ms taken from the
    clock, and image_size_bytes = 0, whether the fault came from reading
    the upload or, the image read, from building the failure response
    around an error that is no string. *)
Theorem uncaught_exception_is_answered (w : world)
    (image : option Relay.UploadFile) (language : string)
    (calls0 : list request) :
  ((exists response,
      fst (Relay.process_ocr w image language calls0) = Relay.Return response) \/
   (exists status detail,
      fst (Relay.process_ocr w image language calls0) =
        Relay.Throw (Relay.HTTPException status detail) /\
      (status = 400 \/ status = 413)%Z)) /\
  (forall e fx,
     Relay.process_ocr_body w image language (time w 0) calls0 =
       (Relay.Throw (Relay.Other e), fx) ->
     exists response,
       Relay.process_ocr w image language calls0 =
         (Relay.Return response, Relay.calls fx) /\
       Relay.success response = false /\
       Relay.error_message response =
         Some ("Internal server error: " ++ str e) /\
       Relay.processing_time_ms response ==
         (time w (Relay.readings fx) - time w 0) * 1000 /\
       Relay.image_size_bytes response = 0%Z /\
       Relay.language_used response = language /\
       ((exists file, image = Some file /\ Relay.read file = Raise e) \/
        (exists file image_data error,
           image = Some file /\ Relay.read file = Ok image_data /\
           fst (process_ocr_api w image_data language calls0) =
             Ok (Failure error) /\
           Relay.validate_optional_str w error = Raise e))).
Proof.
  split.
  - destruct (Relay.process_ocr_body w image language (time w 0) calls0)
      as [o fx] eqn:Hbody.
    destruct o as [response | [status detail | e]].
    + left. exists response. unfold Relay.process_ocr. rewrite Hbody. reflexivity.
    + right. exists status, detail. split.
      * unfold Relay.process_ocr. rewrite Hbody. reflexivity.
      * exact (process_ocr_body_throws _ _ _ _ _ _ _ _ Hbody).
    + left. rewrite (process_ocr_catch_all _ _ _ _ _ _ Hbody).
      eexists. reflexivity.
  - intros e fx Hbody. rewrite (process_ocr_catch_all _ _ _ _ _ _ Hbody).
    eexists. split; [reflexivity |]. simpl.
    repeat split; try reflexivity.
    exact (catch_all_sources _ _ _ _ _ _ _ Hbody).
Qed.

Lemma uncaught_exception_is_answered_witness :
  exists response,
    Relay.process_ocr (Examples.world_of (Ok Examples.two_lines))
      (Some Examples.broken_upload) "eng" [] = (Relay.Return response, []) /\
    Relay.success response = false /\
    Relay.error_message response =
      Some "Internal server error: I/O operation on closed file." /\
    Relay.image_size_bytes response = 0%Z.
Proof.
  destruct (uncaught_exception_is_answered
              (Examples.world_of (Ok Examples.two_lines))
              (Some Examples.broken_upload) "eng" []) as [_ H].
  destruct (H (Exception_ "I/O operation on closed file.")
              {| Relay.calls := []; Relay.readings := 1 |} Logic.eq_refl)
    as (response & Hr & Hs & Hm & _ & Hsize & _).
  exists response. auto.
Defined.

(** ** The two failure shapes (C10) *)

(** C10, as stated, fails when the failure carries the provider's own
    error message and that message is a list: the provider call returns
    a failure, the response model rejects the list, and the response is
    the catch-all one, with words and lines absent. *)
Lemma list_error_message_is_answered_by_catch_all :
  (exists m calls1,
     process_ocr_api (Examples.world_of (Ok Examples.errored))
       Examples.small_image "eng" [] = (Ok (Failure m), calls1)) /\
  ~ (forall response calls1,
       Relay.process_ocr (Examples.world_of (Ok Examples.errored))
         (Some Examples.small_upload) "eng" [] =
       (Relay.Return response, calls1) ->
       Relay.words response = Some [] /\ Relay.lines response = Some []).
Proof.
  split.
  - eexists. eexists. vm_compute. reflexivity.
  - intros H.
    assert (E : exists response calls1,
               Relay.process_ocr (Examples.world_of (Ok Examples.errored))
                 (Some Examples.small_upload) "eng" [] =
               (Relay.Return response, calls1) /\
               Relay.words response = None).
    { eexists. eexists. split; vm_compute; reflexivity. }
    destruct E as (response & calls1 & E & Hnone).
    destruct (H response calls1 E) as [Hwords _].
    rewrite Hnone in Hwords. discriminate.
Qed.

(** The two shapes of a response with success = false. *)
Lemma failure_response_shapes w image language calls0 response :
  fst (Relay.process_ocr w image language calls0) = Relay.Return response ->
  Relay.success response = false ->
  (Relay.words response = Some [] /\ Relay.lines response = Some [] /\
   Relay.text response = None /\ Relay.confidence response = None /\
   exists file image_data error,
     image = Some file /\ Relay.read file = Ok image_data /\
     Relay.image_size_bytes response = Relay.len image_data /\
     fst (process_ocr_api w image_data language calls0) = Ok (Failure error) /\
     Relay.validate_optional_str w error = Ok (Relay.error_message response))
  \/
  (Relay.words response = None /\ Relay.lines response = None /\
   Relay.text response = None /\ Relay.confidence response = None /\
   Relay.image_size_bytes response = 0%Z /\
   exists e fx,
     Relay.process_ocr_body w image language (time w 0) calls0 =
       (Relay.Throw (Relay.Other e), fx) /\
     Relay.error_message response =
       Some ("Internal server error: " ++ str e)).
Proof.
  unfold Relay.process_ocr.
  destruct (Relay.process_ocr_body w image language (time w 0) calls0)
    as [o fx] eqn:Hbody.
  destruct o as [r | [status detail | e]]; simpl; intros H; inversion H;
    subst; clear H; intros Hfalse.
  - left. unfold Relay.process_ocr_body in Hbody.
    destruct image as [file |]; [| discriminate].
    destruct (Relay.read file) as [image_data | e] eqn:Hread; [| discriminate].
    destruct (1024 * 1024 <? Relay.len image_data)%Z; [discriminate |].
    destruct (process_ocr_api w image_data language calls0)
      as [[r | e] calls1] eqn:Hapi; [| discriminate].
    destruct r as [t c la ws ls | error].
    + inversion Hbody; subst. discriminate.
    + destruct (Relay.validate_optional_str w error) as [em | e] eqn:Hv;
        [| discriminate].
      inversion Hbody; subst. simpl.
      do 4 (split; [reflexivity |]).
      exists file, image_data, error. rewrite Hapi. repeat split; auto.
  - right. simpl. do 5 (split; [reflexivity |]). eauto.
Qed.

(** C10 (amended).  When the provider call returns a failure whose
    error the response model takes for error_message, the response
    carries it, words = [] and lines = [], no text and no confidence,
    and the size of the image; the model takes a string and null.  When
    the model rejects the error, as it does a list and a dict, the
    response is the one of the catch-all path.  A response of the
    catch-all path, whatever raised, carries no words and no lines
    (null, not empty lists) and image_size_bytes = 0.  Every response
    with success = false has one of these two shapes, which differ in
    words and lines. *)
Theorem failure_shapes_differ (w : world) (image : option Relay.UploadFile)
    (language : string) (calls0 : list request) :
  (forall file image_data error calls1,
     image = Some file ->
     Relay.read file = Ok image_data ->
     (Relay.len image_data <= 1024 * 1024)%Z ->
     process_ocr_api w image_data language calls0 =
       (Ok (Failure error), calls1) ->
     (forall message,
        Relay.validate_optional_str w error = Ok message ->
        Relay.process_ocr w image language calls0 =
          (Relay.Return
             {| Relay.success := false;
                Relay.text := None;
                Relay.confidence := None;
                Relay.error_message := message;
                Relay.processing_time_ms := (time w 1 - time w 0) * 1000;
                Relay.image_size_bytes := Relay.len image_data;
                Relay.language_used := language;
                Relay.words := Some [];
                Relay.lines := Some [] |},
           calls1)) /\
     (forall e,
        Relay.validate_optional_str w error = Raise e ->
        Relay.process_ocr w image language calls0 =
          (Relay.Return
             {| Relay.success := false;
                Relay.text := None;
                Relay.confidence := None;
                Relay.error_message :=
                  Some ("Internal server error: " ++ str e);
                Relay.processing_time_ms := (time w 2 - time w 0) * 1000;
                Relay.image_size_bytes := 0;
                Relay.language_used := language;
                Relay.words := None;
                Relay.lines := None |},
           calls1))) /\
  ((forall m, Relay.validate_optional_str w (PyStr m) = Ok (Some m)) /\
   Relay.validate_optional_str w PyNone = Ok None /\
   (forall l, exists e, Relay.validate_optional_str w (PyList l) = Raise e) /\
   (forall d, exists e, Relay.validate_optional_str w (PyDict d) = Raise e)) /\
  (forall e fx,
     Relay.process_ocr_body w image language (time w 0) calls0 =
       (Relay.Throw (Relay.Other e), fx) ->
     exists response,
       Relay.process_ocr w image language calls0 =
         (Relay.Return response, Relay.calls fx) /\
       Relay.success response = false /\
       Relay.words response = None /\
       Relay.lines response = None /\
       Relay.text response = None /\
       Relay.confidence response = None /\
       Relay.image_size_bytes response = 0%Z) /\
  (forall response,
     fst (Relay.process_ocr w image language calls0) = Relay.Return response ->
     Relay.success response = false ->
     (Relay.words response = Some [] /\ Relay.lines response = Some [] /\
      Relay.text response = None /\ Relay.confidence response = None /\
      exists file image_data error,
        image = Some file /\ Relay.read file = Ok image_data /\
        Relay.image_size_bytes response = Relay.len image_data /\
        fst (process_ocr_api w image_data language calls0) =
          Ok (Failure error) /\
        Relay.validate_optional_str w error =
          Ok (Relay.error_message response))
     \/
     (Relay.words response = None /\ Relay.lines response = None /\
      Relay.text response = None /\ Relay.confidence response = None /\
      Relay.image_size_bytes response = 0%Z /\
      exists e fx,
        Relay.process_ocr_body w image language (time w 0) calls0 =
          (Relay.Throw (Relay.Other e), fx) /\
        Relay.error_message response =
          Some ("Internal server error: " ++ str e))).
Proof.
  split; [| split; [| split]].
  - intros file image_data error calls1 -> Hread Hsize Hapi.
    apply Z.ltb_ge in Hsize.
    split.
    + intros message Hv. unfold Relay.process_ocr, Relay.process_ocr_body.
      rewrite Hread, Hsize, Hapi, Hv. reflexivity.
    + intros e Hv. unfold Relay.process_ocr, Relay.process_ocr_body.
      rewrite Hread, Hsize, Hapi, Hv. reflexivity.
  - repeat split; intros; try reflexivity; eexists; reflexivity.
  - intros e fx Hbody. rewrite (process_ocr_catch_all _ _ _ _ _ _ Hbody).
    eexists. split; [reflexivity |]. simpl. repeat split; reflexivity.
  - intros response. apply failure_response_shapes.
Qed.

Lemma failure_shapes_differ_witness :
  (exists response calls1,
     Relay.process_ocr (Examples.world_of (Ok Examples.bad_image))
       (Some Examples.small_upload) "eng" [] = (Relay.Return response, calls1) /\
     Relay.success response = false /\
     Relay.error_message response = Some "Bad image" /\
     Relay.words response = Some [] /\
     Relay.lines response = Some [] /\
     Relay.image_size_bytes response = 3%Z) /\
  (exists response calls1,
     Relay.process_ocr (Examples.world_of (Ok Examples.errored))
       (Some Examples.small_upload) "eng" [] = (Relay.Return response, calls1) /\
     Relay.success response = false /\
     Relay.words response = None /\
     Relay.lines response = None /\
     Relay.image_size_bytes response = 0%Z) /\
  (exists response calls1,
     Relay.process_ocr (Examples.world_of (Ok Examples.two_lines))
       (Some Examples.broken_upload) "eng" [] = (Relay.Return response, calls1) /\
     Relay.success response = false /\
     Relay.words response = None /\
     Relay.lines response = None /\
     Relay.image_size_bytes response = 0%Z).
Proof.
  assert (Hsize : (Relay.len Examples.small_image <= 1024 * 1024)%Z)
    by (vm_compute; discriminate).
  split; [| split].
  - destruct (failure_shapes_differ (Examples.world_of (Ok Examples.bad_image))
                (Some Examples.small_upload) "eng" []) as [H _].
    destruct (H Examples.small_upload Examples.small_image
                (PyStr "Bad image")
                [api_request Examples.small_image "eng"]
                Logic.eq_refl Logic.eq_refl Hsize Logic.eq_refl) as [Hok _].
    eexists. eexists. split; [exact (Hok (Some "Bad image") Logic.eq_refl) |].
    simpl. repeat split; reflexivity.
  - destruct (failure_shapes_differ (Examples.world_of (Ok Examples.errored))
                (Some Examples.small_upload) "eng" []) as [H _].
    destruct (H Examples.small_upload Examples.small_image
                (PyList [PyStr "Unable to recognize the file type"])
                [api_request Examples.small_image "eng"]
                Logic.eq_refl Logic.eq_refl Hsize Logic.eq_refl) as [_ Hraise].
    eexists. eexists. split; [exact (Hraise _ Logic.eq_refl) |].
    simpl. repeat split; reflexivity.
  - destruct (failure_shapes_differ (Examples.world_of (Ok Examples.two_lines))
                (Some Examples.broken_upload) "eng" []) as (_ & _ & H & _).
    destruct (H (Exception_ "I/O operation on closed file.")
                {| Relay.calls := []; Relay.readings := 1 |} Logic.eq_refl)
      as (response & Hr & Hs & Hw & Hl & _ & _ & Hsz).
    exists response, []. auto.
Defined.

(** * Further properties of the service *)

(** ** The line box is the all-zero box or a union of numbers *)





(** The two ways [_calculate_line_bounding_box] ends. *)
Lemma calculate_line_bounding_box_cases (line_words : list word_ref) :
  _calculate_line_bounding_box line_words = Ok zero_box \/
  exists min_x min_y max_x2 max_y2 width height,
    line_words <> [] /\
    Py.min (map box_x (boxes_of line_words)) = Ok min_x /\
    Py.min (map box_y (boxes_of line_words)) = Ok min_y /\
    Py.max (map box_x2 (boxes_of line_words)) = Ok max_x2 /\
    Py.max (map box_y2 (boxes_of line_words)) = Ok max_y2 /\
    sub max_x2 min_x = Ok width /\
    sub max_y2 min_y = Ok height /\
    _calculate_line_bounding_box line_words =
      Ok {| box_x := min_x; box_y := min_y; box_width := width;
            box_height := height; box_x2 := max_x2; box_y2 := max_y2 |}.
Proof.
  destruct line_words as [| w0 ws]; [left; reflexivity |].
  unfold _calculate_line_bounding_box.
  destruct (Py.min (map box_x (boxes_of (w0 :: ws)))) as [mx | e] eqn:Emx;
    [| left; reflexivity].
  destruct (Py.min (map box_y (boxes_of (w0 :: ws)))) as [my | e] eqn:Emy;
    [| left; reflexivity].
  destruct (Py.max (map box_x2 (boxes_of (w0 :: ws)))) as [Mx | e] eqn:EMx;
    [| left; reflexivity].
  destruct (Py.max (map box_y2 (boxes_of (w0 :: ws)))) as [My | e] eqn:EMy;
    [| left; reflexivity].
  cbn [bind].
  destruct (sub Mx mx) as [wd | e] eqn:Ewd; [| left; reflexivity].
  destruct (sub My my) as [ht | e] eqn:Eht; [| left; reflexivity].
  right. exists mx, my, Mx, My, wd, ht.
  repeat split; auto. discriminate.
Qed.




(** ** Every provider line and word is carried over, in order *)

Lemma process_word_from line_idx st line_words word st' line_words' :
  process_word line_idx st line_words word = Ok (st', line_words') ->
  exists r,
    line_words' = (line_words ++ [r])%list /\ word_from line_idx word r.
Proof.
  unfold process_word. intros H.
  bind_inv H. bind_inv H. bind_inv H. bind_inv H.
  inversion H; subst; clear H.
  eexists. split; [reflexivity |]. repeat split; assumption.
Qed.

Lemma Forall2_snoc {A B : Type} (R : A -> B -> Prop) l l' a b :
  Forall2 R l l' -> R a b -> Forall2 R (l ++ [a]) (l' ++ [b]).
Proof.
  intros H Hab. apply Forall2_app; [exact H |]. constructor; [exact Hab | constructor].
Qed.

Lemma Forall2_nth_error {A B : Type} (R : A -> B -> Prop) l l' :
  Forall2 R l l' ->
  forall i a b, nth_error l i = Some a -> nth_error l' i = Some b -> R a b.
Proof.
  induction 1 as [| a0 b0 l l' H0 Hrest IH]; intros i a b Ha Hb.
  - destruct i; discriminate.
  - destruct i as [| i]; simpl in Ha, Hb.
    + inversion Ha; inversion Hb; subst. exact H0.
    + exact (IH i a b Ha Hb).
Qed.

Lemma process_words_from line_idx ws : forall st line_words st' line_words',
  process_words line_idx st line_words ws = Ok (st', line_words') ->
  exists new,
    line_words' = (line_words ++ new)%list /\
    Forall2 (word_from line_idx) ws new.
Proof.
  induction ws as [| word ws IH]; intros st lw st' lw' H; simpl in H.
  - inversion H; subst. exists []. rewrite app_nil_r. split; [reflexivity | constructor].
  - bind_inv H. destruct a as [st1 lw1].
    destruct (process_word_from _ _ _ _ _ _ Ha) as (r & -> & Hr).
    destruct (IH _ _ _ _ H) as (new & -> & Hnew).
    exists (r :: new). rewrite <- app_assoc. split; [reflexivity |].
    constructor; assumption.
Qed.

Lemma process_line_from line_idx st line st' :
  process_line line_idx st line = Ok st' ->
  exists l,
    lines st' = (lines st ++ [l])%list /\
    l_lineIndex l = line_idx /\ line_from line l.
Proof.
  unfold process_line. intros H.
  bind_inv H. bind_inv H. bind_inv H. bind_inv H. destruct a2 as [st1 lw].
  bind_inv H. inversion H; subst; clear H.
  destruct (process_words_from _ _ _ _ _ _ Ha2) as (new & Hlw & Hnew).
  simpl in Hlw. subst lw.
  destruct (process_words_Ok _ _ _ _ _ _ Ha2) as (_ & _ & _ & Hl & _).
  eexists. simpl. rewrite Hl. split; [reflexivity |]. split; [reflexivity |].
  split; simpl; [exact Ha |].
  exists a1. split; [| exact Hnew].
  unfold line_words_of. rewrite Ha0. exact Ha1.
Qed.

Lemma process_lines_from ls : forall line_idx st st',
  process_lines line_idx st ls = Ok st' ->
  exists new,
    lines st' = (lines st ++ new)%list /\ Forall2 line_from ls new.
Proof.
  induction ls as [| line ls IH]; intros idx st st' H; simpl in H.
  - inversion H; subst. exists []. rewrite app_nil_r. split; [reflexivity | constructor].
  - bind_inv H.
    destruct (process_line_from _ _ _ _ Ha) as (l & Hl & _ & Hfrom).
    destruct (IH _ _ _ H) as (new & Hl' & Hnew).
    exists (l :: new). rewrite Hl', Hl, <- app_assoc.
    split; [reflexivity | constructor; assumption].
Qed.

Lemma normalise_overlay_lines result_ language :
  is_success (normalise result_ language) ->
  exists ls,
    overlay_lines result_ = Ok ls /\
    Forall2 line_from ls (result_lines (normalise result_ language)).
Proof.
  unfold normalise, overlay_lines.
  destruct (get result_ "IsErroredOnProcessing" PyNone) as [flag | e];
    [| intros []].
  cbn [bind]. destruct (truthy flag).
  - destruct (get result_ "ErrorMessage" (PyStr "OCR API error")); intros [].
  - destruct (get result_ "ParsedResults" (PyList [])) as [prs | e];
      [| intros []].
    cbn [bind]. destruct (negb (truthy prs)); [intros [] |].
    unfold process_parsed_results.
    destruct (getitem0 prs) as [pr | e]; [| intros []]. cbn [bind].
    destruct (get pr "TextOverlay" (PyDict [])) as [ov | e]; [| intros []].
    cbn [bind].
    destruct (get pr "ParsedText" (PyStr "")) as [pt | e]; [| intros []].
    cbn [bind]. destruct (strip pt) as [t | e]; [| intros []]. cbn [bind].
    destruct (get ov "Lines" (PyList [])) as [lf | e]; [| intros []].
    cbn [bind]. destruct (iter lf) as [ls | e]; [| intros []]. cbn [bind].
    destruct (process_lines 0 initial_locals ls) as [st | e] eqn:Hrun;
      [| intros []].
    intros _. exists ls. split; [reflexivity |]. simpl.
    destruct (process_lines_from _ _ _ _ Hrun) as (new & Hl & Hnew).
    simpl in Hl. rewrite Hl. exact Hnew.
Qed.

(** X2.  In every successful normalisation the result has one line per
    line of the first parsed result's overlay and one word per word of
    that line, in the provider's order.  A line carries the provider's
    LineText ('' when absent), a word the provider's WordText ('' when
    absent) and Confidence (0 when absent), the box parsed from that
    word, and the index of its line. *)
Theorem lines_and_words_are_carried_over (result_ : pyval) (language : string) :
  is_success (normalise result_ language) ->
  exists ls,
    overlay_lines result_ = Ok ls /\
    Forall2 line_from ls (result_lines (normalise result_ language)) /\
    List.length (result_lines (normalise result_ language)) = List.length ls /\
    forall i line l,
      nth_error ls i = Some line ->
      nth_error (result_lines (normalise result_ language)) i = Some l ->
      l_lineIndex l = i /\
      get line "LineText" (PyStr "") = Ok (l_text l) /\
      exists ws,
        line_words_of line = Ok ws /\
        List.length (l_words l) = List.length ws /\
        Forall2 (word_from i) ws (l_words l).
Proof.
  intros Hs.
  destruct (normalise_overlay_lines result_ language Hs) as (ls & Hls & Hfrom).
  exists ls. split; [exact Hls |]. split; [exact Hfrom |].
  split; [symmetry; exact (Forall2_length Hfrom) |].
  intros i line l Hline Hl.
  assert (Hidx : l_lineIndex l = i).
  { destruct (normalise result_ language) as [[t c la ws0 ls0 | m] | e] eqn:E;
      simpl in Hs; try contradiction.
    destruct (success_shape _ _ _ _ _ _ _ E) as (_ & Hidx & _).
    simpl in Hl. apply (nth_error_index ls0 0%nat Hidx i l Hl). }
  split; [exact Hidx |].
  assert (Hone : line_from line l)
    by exact (Forall2_nth_error _ _ _ Hfrom i line l Hline Hl).
  destruct Hone as (Htext & ws & Hws & Hwords).
  split; [exact Htext |]. exists ws. split; [exact Hws |].
  split; [symmetry; exact (Forall2_length Hwords) |].
  rewrite <- Hidx. exact Hwords.
Qed.

Lemma lines_and_words_are_carried_over_witness :
  is_success (normalise Examples.unscored "eng") /\
  exists ls,
    overlay_lines Examples.unscored = Ok ls /\
    List.length (result_lines (normalise Examples.unscored "eng")) =
      List.length ls /\
    List.length ls = 1%nat.
Proof.
  assert (Hs : is_success (normalise Examples.unscored "eng"))
    by (vm_compute; exact I).
  split; [exact Hs |].
  destruct (lines_and_words_are_carried_over Examples.unscored "eng" Hs)
    as (ls & Hls & _ & Hlen & _).
  exists ls. split; [exact Hls |]. split; [exact Hlen |].
  vm_compute in Hls. inversion Hls. reflexivity.
Defined.

(** ** Without scores the confidence is 0 *)

Lemma Forall2_In_r {A B : Type} (R : A -> B -> Prop) l l' b :
  Forall2 R l l' -> In b l' -> exists a, In a l /\ R a b.
Proof.
  induction 1 as [| a0 b0 l l' H0 Hrest IH]; intros Hb.
  - destruct Hb.
  - destruct Hb as [<- | Hb].
    + exists a0. split; [left; reflexivity | exact H0].
    + destruct (IH Hb) as (a & Ha & Hab). exists a. split; [right; exact Ha | exact Hab].
Qed.

(** Every word of a result was made from one of the provider's words. *)
Lemma result_word_from_provider result_ language r :
  In r (result_words (normalise result_ language)) ->
  exists word,
    In word (provider_words result_) /\
    word_from (w_lineIndex (oval r)) word r.
Proof.
  intros Hr.
  assert (Hs : is_success (normalise result_ language)).
  { destruct (normalise result_ language) as [[t c la ws ls | m] | e];
      simpl in *; try contradiction; exact I. }
  destruct (normalise_overlay_lines result_ language Hs) as (ls & Hls & Hfrom).
  rewrite result_words_of_lines in Hr. apply in_all_words in Hr.
  destruct Hr as (l & Hl & Hr).
  destruct (Forall2_In_r _ _ _ _ Hfrom Hl) as (line & Hline & _ & ws & Hws & Hwords).
  destruct (Forall2_In_r _ _ _ _ Hwords Hr) as (word & Hword & Hfromw).
  exists word. split.
  - unfold provider_words. rewrite Hls. apply in_concat.
    exists ws. split; [| exact Hword].
    apply in_map_iff. exists line. rewrite Hws. auto.
  - destruct Hfromw as (Ht & Hc & Hb & Hi). repeat split; auto.
Qed.

Lemma sum_confidences_zero ws :
  (forall r, In r ws -> w_confidence (oval r) = PyInt 0) ->
  sum_confidences ws == 0.
Proof.
  induction ws as [| r ws IH]; intros H; simpl.
  - reflexivity.
  - rewrite IH by (intros r' Hr'; apply H; right; exact Hr').
    unfold number. rewrite (H r) by (left; reflexivity). simpl.
    change (inject_Z 0) with 0. lra.
Qed.

(** X3.  When no word of the provider's overlay has a [Confidence]
    field (the provider's overlay words have none), every word of a
    successful result has confidence 0 and the confidence of the result
    is 0. *)
Theorem confidence_is_zero_without_scores (result_ : pyval) (language : string) :
  is_success (normalise result_ language) ->
  (forall word d,
     In word (provider_words result_) -> word = PyDict d ->
     lookup "Confidence" d = None) ->
  (forall r, In r (result_words (normalise result_ language)) ->
     w_confidence (oval r) = PyInt 0) /\
  result_confidence (normalise result_ language) == 0.
Proof.
  intros Hs Hnone.
  assert (Hzero : forall r,
             In r (result_words (normalise result_ language)) ->
             w_confidence (oval r) = PyInt 0).
  { intros r Hr.
    destruct (result_word_from_provider _ _ r Hr) as (word & Hin & _ & Hc & _).
    destruct word as [| b | z | q | s | l | d]; simpl in Hc; try discriminate.
    rewrite (Hnone (PyDict d) d Hin Logic.eq_refl) in Hc.
    inversion Hc. reflexivity. }
  split; [exact Hzero |].
  rewrite (result_confidence_of_words result_ language Hs).
  pose proof (sum_confidences_zero _ Hzero) as Hsum.
  destruct (0 <? List.length (result_words (normalise result_ language)))%nat.
  - rewrite Hsum. unfold Qdiv. rewrite !Qmult_0_l. reflexivity.
  - reflexivity.
Qed.

Lemma confidence_is_zero_without_scores_witness :
  is_success (normalise Examples.unscored "eng") /\
  List.length (result_words (normalise Examples.unscored "eng")) = 2%nat /\
  result_confidence (normalise Examples.unscored "eng") == 0.
Proof.
  assert (Hs : is_success (normalise Examples.unscored "eng"))
    by (vm_compute; exact I).
  split; [exact Hs | split; [vm_compute; reflexivity |]].
  apply (confidence_is_zero_without_scores Examples.unscored "eng" Hs).
  evaluate (provider_words Examples.unscored).
  intros word d [<- | [<- | []]] Hd; inversion Hd; reflexivity.
Defined.

(** ** A malformed answer is reported, not raised *)

Lemma bind_Raise {A B : Type} (m : result A) (k : A -> result B) (e : exn) :
  bind m k = Raise e -> m = Raise e \/ exists a, m = Ok a /\ k a = Raise e.
Proof.
  destruct m as [a | e0]; simpl; intros H; [right; eauto |].
  left. inversion H. reflexivity.
Qed.

Lemma get_Raise_plain o key default e : get o key default = Raise e -> plain e.
Proof.
  destruct o; simpl; intros H; inversion H; eexists; reflexivity.
Qed.

Lemma getitem0_Raise_plain v e : getitem0 v = Raise e -> plain e.
Proof.
  destruct v as [| b | z | q | s | l | d]; cbn [getitem0]; intros H;
    try (inversion H; eexists; reflexivity).
  - destruct (chars s); inversion H; eexists; reflexivity.
  - destruct l; inversion H; eexists; reflexivity.
Qed.

Lemma strip_Raise_plain v e : strip v = Raise e -> plain e.
Proof.
  destruct v; cbn [strip]; intros H; inversion H; eexists; reflexivity.
Qed.

Lemma iter_Raise_plain v e : iter v = Raise e -> plain e.
Proof.
  destruct v; cbn [iter]; intros H; inversion H; eexists; reflexivity.
Qed.

Lemma float_of_int_Raise_plain z e : float_of_int z = Raise e -> plain e.
Proof.
  unfold float_of_int. destruct (Z.abs z <? 9007199254740992)%Z;
    [discriminate |].
  cbv zeta.
  match goal with
  | |- (if ?c then _ else _) = _ -> _ => destruct c; [| discriminate]
  end.
  intros H. inversion H. eexists; reflexivity.
Qed.

Lemma to_float_Raise_plain v e : to_float v = Raise e -> plain e.
Proof.
  destruct v; cbn [to_float]; intros H;
    try (inversion H; eexists; reflexivity);
    exact (float_of_int_Raise_plain _ _ H).
Qed.

Lemma float_iadd_Raise_plain t v e : float_iadd t v = Raise e -> plain e.
Proof.
  unfold float_iadd. destruct (num_of v); intros H.
  - destruct (to_float v) as [y | e'] eqn:E; [discriminate |].
    inversion H; subst. exact (to_float_Raise_plain _ _ E).
  - inversion H. eexists; reflexivity.
Qed.

Lemma parse_word_coordinates_returns word :
  exists b, _parse_word_coordinates word = Ok b.
Proof.
  destruct (parse_word_coordinates_cases word)
    as [(d & x2 & y2 & _ & _ & _ & H) | [H _]]; eauto.
Qed.

Lemma calculate_line_bounding_box_returns line_words :
  exists b, _calculate_line_bounding_box line_words = Ok b.
Proof.
  destruct (calculate_line_bounding_box_cases line_words)
    as [H | (mx & my & Mx & My & wd & ht & _ & _ & _ & _ & _ & _ & _ & H)];
    eauto.
Qed.

Lemma process_word_Raise_plain line_idx st line_words word e :
  process_word line_idx st line_words word = Raise e -> plain e.
Proof.
  unfold process_word. intros H.
  apply bind_Raise in H. destruct H as [H | (a & Ha & H)];
    [exact (get_Raise_plain _ _ _ _ H) |].
  apply bind_Raise in H. destruct H as [H | (a0 & Ha0 & H)];
    [exact (get_Raise_plain _ _ _ _ H) |].
  apply bind_Raise in H. destruct H as [H | (a1 & Ha1 & H)].
  { destruct (parse_word_coordinates_returns word) as [b Hb]. congruence. }
  apply bind_Raise in H. destruct H as [H | (a2 & Ha2 & H)];
    [exact (float_iadd_Raise_plain _ _ _ H) | discriminate].
Qed.

Lemma process_words_Raise_plain line_idx ws : forall st line_words e,
  process_words line_idx st line_words ws = Raise e -> plain e.
Proof.
  induction ws as [| word ws IH]; intros st lw e H; simpl in H; [discriminate |].
  apply bind_Raise in H. destruct H as [H | ([st1 lw1] & Ha & H)].
  - exact (process_word_Raise_plain _ _ _ _ _ H).
  - exact (IH _ _ _ H).
Qed.

Lemma process_line_Raise_plain line_idx st line e :
  process_line line_idx st line = Raise e -> plain e.
Proof.
  unfold process_line. intros H.
  apply bind_Raise in H. destruct H as [H | (a & Ha & H)];
    [exact (get_Raise_plain _ _ _ _ H) |].
  apply bind_Raise in H. destruct H as [H | (a0 & Ha0 & H)];
    [exact (get_Raise_plain _ _ _ _ H) |].
  apply bind_Raise in H. destruct H as [H | (a1 & Ha1 & H)];
    [exact (iter_Raise_plain _ _ H) |].
  apply bind_Raise in H. destruct H as [H | ([st1 lw] & Ha2 & H)];
    [exact (process_words_Raise_plain _ _ _ _ _ H) |].
  apply bind_Raise in H. destruct H as [H | (a3 & Ha3 & H)]; [| discriminate].
  destruct (calculate_line_bounding_box_returns lw) as [b Hb]. congruence.
Qed.

Lemma process_lines_Raise_plain ls : forall line_idx st e,
  process_lines line_idx st ls = Raise e -> plain e.
Proof.
  induction ls as [| line ls IH]; intros idx st e H; simpl in H; [discriminate |].
  apply bind_Raise in H. destruct H as [H | (st1 & Ha & H)].
  - exact (process_line_Raise_plain _ _ _ _ H).
  - exact (IH _ _ _ H).
Qed.

Lemma normalise_Raise_plain result_ language e :
  normalise result_ language = Raise e -> plain e.
Proof.
  unfold normalise. intros H.
  apply bind_Raise in H. destruct H as [H | (flag & Hflag & H)];
    [exact (get_Raise_plain _ _ _ _ H) |].
  destruct (truthy flag).
  - apply bind_Raise in H. destruct H as [H | (m & Hm & H)];
      [exact (get_Raise_plain _ _ _ _ H) | discriminate].
  - apply bind_Raise in H. destruct H as [H | (prs & Hprs & H)];
      [exact (get_Raise_plain _ _ _ _ H) |].
    destruct (negb (truthy prs)); [discriminate |].
    unfold process_parsed_results in H.
    apply bind_Raise in H. destruct H as [H | (pr & Hpr & H)];
      [exact (getitem0_Raise_plain _ _ H) |].
    apply bind_Raise in H. destruct H as [H | (ov & Hov & H)];
      [exact (get_Raise_plain _ _ _ _ H) |].
    apply bind_Raise in H. destruct H as [H | (pt & Hpt & H)];
      [exact (get_Raise_plain _ _ _ _ H) |].
    apply bind_Raise in H. destruct H as [H | (t & Ht & H)];
      [exact (strip_Raise_plain _ _ H) |].
    apply bind_Raise in H. destruct H as [H | (lf & Hlf & H)];
      [exact (get_Raise_plain _ _ _ _ H) |].
    apply bind_Raise in H. destruct H as [H | (ls & Hls & H)];
      [exact (iter_Raise_plain _ _ H) |].
    apply bind_Raise in H. destruct H as [H | (st & Hst & H)];
      [exact (process_lines_Raise_plain _ _ _ _ H) | discriminate].
Qed.

(** X4.  Whatever goes wrong while the provider's answer is
    normalised (the answer or a line or a word is no dict, the overlay
    cannot be iterated, the text is no string, a confidence is no
    number) is reported: [process_ocr_api] returns the failure
    "OCR API call failed: " followed by the text of the exception, after
    the one request it sent. *)
Theorem malformed_answer_is_reported (w : world)
    (image_data jpeg : list Byte.byte) (language : string)
    (calls0 : list request) (result_ : pyval) (e : exn) :
  encode_jpeg w image_data = Ok jpeg ->
  send w (api_request jpeg language) = Ok result_ ->
  normalise result_ language = Raise e ->
  process_ocr_api w image_data language calls0 =
    (Ok (Failure (PyStr ("OCR API call failed: " ++ str e))),
     (calls0 ++ [api_request jpeg language])%list).
Proof.
  intros Hjpeg Hsend Hraise.
  destruct (normalise_Raise_plain _ _ _ Hraise) as [m ->].
  unfold process_ocr_api. rewrite Hjpeg, Hsend. cbn [bind].
  rewrite Hraise. reflexivity.
Qed.

Lemma malformed_answer_is_reported_witness :
  process_ocr_api (Examples.world_of (Ok Examples.text_confidence))
    Examples.small_image "eng" [] =
    (Ok (Failure (PyStr
       "OCR API call failed: unsupported operand type(s) for +=: 'float' and 'str'")),
     [api_request Examples.small_image "eng"]).
Proof.
  apply (malformed_answer_is_reported
           (Examples.world_of (Ok Examples.text_confidence))
           Examples.small_image Examples.small_image "eng" []
           Examples.text_confidence
           (Exception_ "unsupported operand type(s) for +=: 'float' and 'str'")
           Logic.eq_refl Logic.eq_refl).
  vm_compute. reflexivity.
Defined.

(** X5.  [process_ocr_api] never raises: for every image, language,
    and behaviour of Pillow and of the provider it returns a dict.  It
    sends one request when the image could be re-encoded and none
    otherwise; it never sends a second one. *)
Theorem process_ocr_api_never_raises (w : world) (image_data : list Byte.byte)
    (language : string) (calls0 : list request) :
  (exists r, fst (process_ocr_api w image_data language calls0) = Ok r) /\
  (forall jpeg, encode_jpeg w image_data = Ok jpeg ->
     snd (process_ocr_api w image_data language calls0) =
       (calls0 ++ [api_request jpeg language])%list) /\
  (forall e, encode_jpeg w image_data = Raise e ->
     snd (process_ocr_api w image_data language calls0) = calls0 /\
     exists m,
       fst (process_ocr_api w image_data language calls0) =
         Ok (Failure (PyStr m))).
Proof.
  split; [exact (process_ocr_api_returns w image_data language calls0) |].
  split.
  - intros jpeg Hjpeg. unfold process_ocr_api. rewrite Hjpeg. reflexivity.
  - intros e He. unfold process_ocr_api. rewrite He. simpl.
    split; [reflexivity | exact (api_handler_returns e)].
Qed.

(** ** The handler, end to end *)

Lemma api_handler_not_success e t c la ws ls :
  api_handler e <> Ok (Success t c la ws ls).
Proof.
  destruct (api_handler_returns e) as [m Hm]. rewrite Hm. discriminate.
Qed.

(** A success dict of [process_ocr_api] is the normaliser's, for an
    answer the provider gave to the one request sent. *)
Lemma process_ocr_api_Success w image_data language calls0 t c la ws ls calls1 :
  process_ocr_api w image_data language calls0 =
    (Ok (Success t c la ws ls), calls1) ->
  exists jpeg result_,
    encode_jpeg w image_data = Ok jpeg /\
    send w (api_request jpeg language) = Ok result_ /\
    normalise result_ language = Ok (Success t c la ws ls) /\
    la = language /\
    calls1 = (calls0 ++ [api_request jpeg language])%list.
Proof.
  unfold process_ocr_api. intros H.
  destruct (encode_jpeg w image_data) as [jpeg | e] eqn:Hjpeg.
  - inversion H as [[Hr Hc]]. clear H.
    destruct (send w (api_request jpeg language)) as [result_ | e] eqn:Hsend;
      simpl in Hr.
    + destruct (normalise result_ language) as [r | e] eqn:Hn; simpl in Hr.
      * inversion Hr; subst r.
        destruct (normalise_Success _ _ _ _ _ _ _ Hn) as (_ & _ & _ & _ & _ & _ & Hla).
        exists jpeg, result_. repeat split; auto.
        simpl. rewrite Hn. reflexivity.
      * exfalso. exact (api_handler_not_success _ _ _ _ _ _ Hr).
    + exfalso. exact (api_handler_not_success _ _ _ _ _ _ Hr).
  - inversion H as [[Hr Hc]]. exfalso.
    exact (api_handler_not_success _ _ _ _ _ _ Hr).
Qed.

Lemma process_ocr_api_sends w image_data language calls0 jpeg :
  encode_jpeg w image_data = Ok jpeg ->
  snd (process_ocr_api w image_data language calls0) =
    (calls0 ++ [api_request jpeg language])%list.
Proof.
  intros Hjpeg. unfold process_ocr_api. rewrite Hjpeg. reflexivity.
Qed.

(** X6.  The handler raises an [HTTPException] in two cases and no
    other: with status 400 and "No image file provided" exactly when no
    file is given, and with status 413 and the size in the detail
    exactly when the file was read and is longer than 1024 * 1024
    bytes. *)
Theorem handler_rejections (w : world) (image : option Relay.UploadFile)
    (language : string) (calls0 : list request) (status : Z) (detail : string) :
  fst (Relay.process_ocr w image language calls0) =
    Relay.Throw (Relay.HTTPException status detail) <->
  (image = None /\ status = 400%Z /\ detail = "No image file provided") \/
  (exists file image_data,
     image = Some file /\ Relay.read file = Ok image_data /\
     (1024 * 1024 < Relay.len image_data)%Z /\
     status = 413%Z /\
     detail = "Image too large: " ++ format_int (Relay.len image_data)
              ++ " bytes (max: 1MB)").
Proof.
  unfold Relay.process_ocr, Relay.process_ocr_body. split.
  - intros H. destruct image as [file |].
    + right. destruct (Relay.read file) as [image_data | e] eqn:Hread;
        [| discriminate].
      destruct (1024 * 1024 <? Relay.len image_data)%Z eqn:Hlarge.
      * simpl in H. inversion H; subst.
        exists file, image_data. apply Z.ltb_lt in Hlarge.
        repeat split; auto.
      * exfalso.
        destruct (process_ocr_api w image_data language calls0)
          as [[r | e] calls1]; [| discriminate].
        destruct r as [t c la ws ls | m]; [discriminate |].
        destruct (Relay.validate_optional_str w m); discriminate.
    + left. simpl in H. inversion H. auto.
  - intros [(-> & -> & ->) | (file & image_data & -> & Hread & Hlarge & -> & ->)].
    + reflexivity.
    + rewrite Hread. apply Z.ltb_lt in Hlarge. rewrite Hlarge. reflexivity.
Qed.

(** X7.  A request makes the handler send at most one request to the
    provider, and it sends one exactly when the file was read, is at
    most 1 MiB long and could be re-encoded: that request carries the
    re-encoded image and the language asked for. *)
Theorem provider_is_called_at_most_once (w : world)
    (image : option Relay.UploadFile) (language : string)
    (calls0 : list request) :
  (snd (Relay.process_ocr w image language calls0) = calls0 \/
   exists file image_data jpeg,
     image = Some file /\ Relay.read file = Ok image_data /\
     (Relay.len image_data <= 1024 * 1024)%Z /\
     encode_jpeg w image_data = Ok jpeg /\
     snd (Relay.process_ocr w image language calls0) =
       (calls0 ++ [api_request jpeg language])%list) /\
  (forall file image_data jpeg,
     image = Some file -> Relay.read file = Ok image_data ->
     (Relay.len image_data <= 1024 * 1024)%Z ->
     encode_jpeg w image_data = Ok jpeg ->
     snd (Relay.process_ocr w image language calls0) =
       (calls0 ++ [api_request jpeg language])%list).
Proof.
  assert (Hsent : forall file image_data jpeg,
             image = Some file -> Relay.read file = Ok image_data ->
             (Relay.len image_data <= 1024 * 1024)%Z ->
             encode_jpeg w image_data = Ok jpeg ->
             snd (Relay.process_ocr w image language calls0) =
               (calls0 ++ [api_request jpeg language])%list).
  { intros file image_data jpeg -> Hread Hsize Hjpeg.
    apply Z.ltb_ge in Hsize.
    unfold Relay.process_ocr, Relay.process_ocr_body. rewrite Hread, Hsize.
    pose proof (process_ocr_api_sends w image_data language calls0 jpeg Hjpeg)
      as Hcalls.
    destruct (process_ocr_api w image_data language calls0) as [r calls1].
    simpl in Hcalls. subst calls1.
    destruct r as [[t c la ws ls | m] | e]; try reflexivity.
    destruct (Relay.validate_optional_str w m); reflexivity. }
  split; [| exact Hsent].
  destruct image as [file |]; [| left; reflexivity].
  destruct (Relay.read file) as [image_data | e] eqn:Hread.
  - destruct (1024 * 1024 <? Relay.len image_data)%Z eqn:Hlarge.
    + left. unfold Relay.process_ocr, Relay.process_ocr_body.
      rewrite Hread, Hlarge. reflexivity.
    + apply Z.ltb_ge in Hlarge.
      destruct (encode_jpeg w image_data) as [jpeg | e] eqn:Hjpeg.
      * right. exists file, image_data, jpeg.
        repeat split; auto. exact (Hsent _ _ _ Logic.eq_refl Hread Hlarge Hjpeg).
      * left. unfold Relay.process_ocr, Relay.process_ocr_body.
        apply Z.ltb_ge in Hlarge. rewrite Hread, Hlarge.
        unfold process_ocr_api. rewrite Hjpeg.
        destruct (api_handler_returns e) as [m Hm]. rewrite Hm.
        destruct (Relay.validate_optional_str w (PyStr m)) eqn:Hv;
          simpl in Hv; inversion Hv; reflexivity.
  - left. unfold Relay.process_ocr, Relay.process_ocr_body.
    rewrite Hread. reflexivity.
Qed.

Lemma provider_is_called_at_most_once_witness :
  snd (Relay.process_ocr (Examples.world_of (Ok Examples.two_lines))
         (Some Examples.small_upload) "eng" []) =
    [api_request Examples.small_image "eng"].
Proof.
  destruct (provider_is_called_at_most_once
              (Examples.world_of (Ok Examples.two_lines))
              (Some Examples.small_upload) "eng" []) as [_ H].
  apply (H Examples.small_upload Examples.small_image Examples.small_image);
    try reflexivity.
  vm_compute. discriminate.
Defined.

(** X8.  When the file is read, is at most 1 MiB long and is
    re-encoded, and the provider's answer is normalised with success,
    the handler returns the response with success = true, the
    normaliser's text, confidence, words and lines, no error message,
    the size of the upload, the language asked for, and the time between
    the two clock readings in milliseconds; the provider was called
    once. *)
Theorem recognised_text_is_returned (w : world) (file : Relay.UploadFile)
    (language : string) (calls0 : list request)
    (image_data jpeg : list Byte.byte) (result_ : pyval) :
  Relay.read file = Ok image_data ->
  (Relay.len image_data <= 1024 * 1024)%Z ->
  encode_jpeg w image_data = Ok jpeg ->
  send w (api_request jpeg language) = Ok result_ ->
  is_success (normalise result_ language) ->
  Relay.process_ocr w (Some file) language calls0 =
    (Relay.Return
       {| Relay.success := true;
          Relay.text := Some (result_text (normalise result_ language));
          Relay.confidence :=
            Some (result_confidence (normalise result_ language));
          Relay.error_message := None;
          Relay.processing_time_ms := (time w 1 - time w 0) * 1000;
          Relay.image_size_bytes := Relay.len image_data;
          Relay.language_used := language;
          Relay.words := Some (result_words (normalise result_ language));
          Relay.lines := Some (result_lines (normalise result_ language)) |},
     (calls0 ++ [api_request jpeg language])%list).
Proof.
  intros Hread Hsize Hjpeg Hsend Hs. apply Z.ltb_ge in Hsize.
  destruct (normalise result_ language) as [[t c la ws ls | m] | e] eqn:Hn;
    simpl in Hs; try contradiction.
  destruct (normalise_Success _ _ _ _ _ _ _ Hn) as (_ & _ & _ & _ & _ & _ & ->).
  unfold Relay.process_ocr, Relay.process_ocr_body.
  rewrite Hread, Hsize. unfold process_ocr_api.
  rewrite Hjpeg, Hsend. cbn [bind]. rewrite Hn. reflexivity.
Qed.

Lemma recognised_text_is_returned_witness :
  exists response,
    Relay.process_ocr (Examples.world_of (Ok Examples.unscored))
      (Some Examples.small_upload) "eng" [] =
      (Relay.Return response, [api_request Examples.small_image "eng"]) /\
    Relay.success response = true /\
    Relay.text response = Some "Hello world" /\
    Relay.image_size_bytes response = 3%Z /\
    Relay.processing_time_ms response == 250.
Proof.
  assert (Hsize : (Relay.len Examples.small_image <= 1024 * 1024)%Z)
    by (vm_compute; discriminate).
  assert (Hs : is_success (normalise Examples.unscored "eng"))
    by (vm_compute; exact I).
  eexists. split.
  - exact (recognised_text_is_returned
             (Examples.world_of (Ok Examples.unscored)) Examples.small_upload
             "eng" [] Examples.small_image Examples.small_image
             Examples.unscored Logic.eq_refl Hsize Logic.eq_refl
             Logic.eq_refl Hs).
  - simpl. repeat split; vm_compute; reflexivity.
Defined.

(** X9.  When the file is read, is at most 1 MiB long and is
    re-encoded, and the provider call raises or its answer cannot be
    normalised, the handler still returns: the response has
    success = false, the message of the matching [except] clause of
    [process_ocr_api], empty words and lines, and the size of the
    upload. *)
Theorem provider_failure_is_answered (w : world) (file : Relay.UploadFile)
    (language : string) (calls0 : list request)
    (image_data jpeg : list Byte.byte) (e : exn) :
  Relay.read file = Ok image_data ->
  (Relay.len image_data <= 1024 * 1024)%Z ->
  encode_jpeg w image_data = Ok jpeg ->
  send w (api_request jpeg language) = Raise e \/
  (exists result_,
     send w (api_request jpeg language) = Ok result_ /\
     normalise result_ language = Raise e) ->
  exists m,
    api_handler e = Ok (Failure (PyStr m)) /\
    Relay.process_ocr w (Some file) language calls0 =
      (Relay.Return
         {| Relay.success := false;
            Relay.text := None;
            Relay.confidence := None;
            Relay.error_message := Some m;
            Relay.processing_time_ms := (time w 1 - time w 0) * 1000;
            Relay.image_size_bytes := Relay.len image_data;
            Relay.language_used := language;
            Relay.words := Some [];
            Relay.lines := Some [] |},
       (calls0 ++ [api_request jpeg language])%list).
Proof.
  intros Hread Hsize Hjpeg Hfail. apply Z.ltb_ge in Hsize.
  destruct (api_handler_returns e) as [m Hm].
  exists m. split; [exact Hm |].
  unfold Relay.process_ocr, Relay.process_ocr_body.
  rewrite Hread, Hsize. unfold process_ocr_api. rewrite Hjpeg.
  destruct Hfail as [Hsend | (result_ & Hsend & Hn)].
  - rewrite Hsend. cbn [bind try_]. rewrite Hm. reflexivity.
  - rewrite Hsend. cbn [bind]. rewrite Hn. cbn [try_]. rewrite Hm. reflexivity.
Qed.

Lemma provider_failure_is_answered_witness :
  exists response,
    Relay.process_ocr
      (Examples.world_of (Raise (TimeoutException "timed out")))
      (Some Examples.small_upload) "eng" [] =
      (Relay.Return response, [api_request Examples.small_image "eng"]) /\
    Relay.success response = false /\
    Relay.error_message response =
      Some "OCR API request timed out. Try with a smaller image or check your internet connection." /\
    Relay.words response = Some [].
Proof.
  assert (Hsize : (Relay.len Examples.small_image <= 1024 * 1024)%Z)
    by (vm_compute; discriminate).
  destruct (provider_failure_is_answered
              (Examples.world_of (Raise (TimeoutException "timed out")))
              Examples.small_upload "eng" [] Examples.small_image
              Examples.small_image (TimeoutException "timed out")
              Logic.eq_refl Hsize Logic.eq_refl (or_introl Logic.eq_refl))
    as (m & Hm & Hresp).
  simpl in Hm. inversion Hm; subst m.
  eexists. split; [exact Hresp |]. simpl. repeat split; reflexivity.
Defined.

(** The three responses the handler returns. *)
Lemma process_ocr_Return w image language calls0 response :
  fst (Relay.process_ocr w image language calls0) = Relay.Return response ->
  Relay.language_used response = language /\
  ((Relay.success response = true /\
    Relay.error_message response = None /\
    (exists t, Relay.text response = Some t) /\
    (exists c, Relay.confidence response = Some c) /\
    (exists ws, Relay.words response = Some ws) /\
    (exists ls, Relay.lines response = Some ls) /\
    exists file image_data,
      image = Some file /\ Relay.read file = Ok image_data /\
      Relay.image_size_bytes response = Relay.len image_data) \/
   (Relay.success response = false /\
    Relay.text response = None /\ Relay.confidence response = None /\
    ((Relay.words response = Some [] /\ Relay.lines response = Some [] /\
      exists file image_data,
        image = Some file /\ Relay.read file = Ok image_data /\
        Relay.image_size_bytes response = Relay.len image_data) \/
     (Relay.words response = None /\ Relay.lines response = None /\
      Relay.image_size_bytes response = 0%Z /\
      exists m, Relay.error_message response =
                  Some ("Internal server error: " ++ m))))).
Proof.
  unfold Relay.process_ocr, Relay.process_ocr_body.
  destruct image as [file |]; [| discriminate].
  destruct (Relay.read file) as [image_data | e] eqn:Hread.
  - destruct (1024 * 1024 <? Relay.len image_data)%Z; [discriminate |].
    destruct (process_ocr_api w image_data language calls0)
      as [[r | e] calls1] eqn:Hapi.
    + destruct r as [t c la ws ls | m].
      * destruct (process_ocr_api_Success _ _ _ _ _ _ _ _ _ _ Hapi)
          as (_ & _ & _ & _ & _ & -> & _).
        simpl. intros H. inversion H; subst; clear H. simpl.
        split; [reflexivity |]. left. repeat split; eauto.
      * destruct (Relay.validate_optional_str w m) as [em | e].
        -- simpl. intros H. inversion H; subst; clear H. simpl.
           split; [reflexivity |]. right.
           do 3 (split; [reflexivity |]). left. repeat split; eauto.
        -- simpl. intros H. inversion H; subst; clear H. simpl.
           split; [reflexivity |]. right.
           do 3 (split; [reflexivity |]). right. repeat split; eauto.
    + simpl. intros H. inversion H; subst; clear H. simpl.
      split; [reflexivity |]. right.
      do 3 (split; [reflexivity |]). right. repeat split; eauto.
  - simpl. intros H. inversion H; subst; clear H. simpl.
    split; [reflexivity |]. right.
    do 3 (split; [reflexivity |]). right. repeat split; eauto.
Qed.

(** X10.  Every response the handler returns names the language that
    was asked for.  A response with success = true carries a text, a
    confidence, words and lines, no error message, and the size of the
    upload; a response with success = false carries neither text nor
    confidence. *)
Theorem response_is_consistent (w : world) (image : option Relay.UploadFile)
    (language : string) (calls0 : list request) (response : Relay.OCRResponse) :
  fst (Relay.process_ocr w image language calls0) = Relay.Return response ->
  Relay.language_used response = language /\
  (Relay.success response = true ->
   Relay.error_message response = None /\
   Relay.text response <> None /\ Relay.confidence response <> None /\
   Relay.words response <> None /\ Relay.lines response <> None /\
   exists file image_data,
     image = Some file /\ Relay.read file = Ok image_data /\
     Relay.image_size_bytes response = Relay.len image_data) /\
  (Relay.success response = false ->
   Relay.text response = None /\ Relay.confidence response = None).
Proof.
  intros H. destruct (process_ocr_Return _ _ _ _ _ H) as [Hlang Hshape].
  split; [exact Hlang |].
  destruct Hshape
    as [(Hs & Hem & [t Ht] & [c Hc] & [ws Hws] & [ls Hls] & Hsize)
       | (Hs & Ht & Hc & _)].
  - split.
    + intros _. rewrite Ht, Hc, Hws, Hls.
      repeat split; try discriminate; assumption.
    + intros Hf. congruence.
  - split.
    + intros Hf. congruence.
    + intros _. auto.
Qed.

Lemma response_is_consistent_witness :
  exists response,
    fst (Relay.process_ocr (Examples.world_of (Ok Examples.unscored))
           (Some Examples.small_upload) "deu" []) = Relay.Return response /\
    Relay.language_used response = "deu" /\
    Relay.success response = true /\
    Relay.error_message response = None.
Proof.
  assert (E : exists response,
             fst (Relay.process_ocr (Examples.world_of (Ok Examples.unscored))
                    (Some Examples.small_upload) "deu" []) =
               Relay.Return response /\
             Relay.success response = true).
  { eexists. split; vm_compute; reflexivity. }
  destruct E as (response & E & Hs).
  destruct (response_is_consistent _ _ _ _ _ E) as (Hlang & Htrue & _).
  exists response. repeat split; auto. apply Htrue. exact Hs.
Defined.

(** ** The text of a result *)

Lemma lstrip_split cs :
  exists pre, cs = (pre ++ lstrip cs)%list /\ all_space pre = true.
Proof.
  induction cs as [| c cs IH]; simpl.
  - exists []. auto.
  - destruct (isspace c) eqn:Hc.
    + destruct IH as (pre & Hs & Hpre). exists (c :: pre). simpl.
      rewrite Hc, Hpre. rewrite <- Hs. auto.
    + exists []. auto.
Qed.

Lemma lstrip_first cs : first_is_space (lstrip cs) = false.
Proof.
  induction cs as [| c cs IH]; simpl; [reflexivity |].
  destruct (isspace c) eqn:Hc; [exact IH | simpl; exact Hc].
Qed.

Lemma all_space_rev cs : all_space cs = true -> all_space (rev cs) = true.
Proof.
  unfold all_space. rewrite !forallb_forall. intros H c Hc.
  apply H. apply in_rev. exact Hc.
Qed.

Lemma rstrip_split cs :
  exists post, cs = (rstrip cs ++ post)%list /\ all_space post = true.
Proof.
  unfold rstrip. destruct (lstrip_split (rev cs)) as (pre & Hs & Hpre).
  exists (rev pre). split; [| apply all_space_rev; exact Hpre].
  rewrite <- rev_app_distr, <- Hs, rev_involutive. reflexivity.
Qed.

Lemma rstrip_last cs : last_is_space (rstrip cs) = false.
Proof.
  unfold last_is_space, rstrip. rewrite rev_involutive. apply lstrip_first.
Qed.

Lemma rstrip_first cs :
  first_is_space cs = false -> first_is_space (rstrip cs) = false.
Proof.
  intros Hc. destruct (rstrip_split cs) as (post & Hs & _).
  destruct (rstrip cs) as [| c t]; [reflexivity |].
  rewrite Hs in Hc. exact Hc.
Qed.

Lemma join_app cs cs' : join (cs ++ cs') = join cs ++ join cs'.
Proof.
  induction cs as [| c cs IH]; simpl; [reflexivity |].
  rewrite IH. clear IH. induction c as [| a c IHc]; simpl; [reflexivity |].
  rewrite IHc. reflexivity.
Qed.

(** A string is its characters, one after the other. *)
Lemma join_chars_upto n : forall s,
  (String.length s <= n)%nat -> join (chars s) = s.
Proof.
  induction n as [| n IH]; intros s Hn;
    destruct s as [| c s1]; try reflexivity; [simpl in Hn; lia |].
  cbn [chars].
  destruct (utf8_width c) as [| [| [| [| [| k]]]]];
    repeat match goal with
           | |- context [match ?x with
                         | EmptyString => _
                         | String _ _ => _
                         end] => is_var x; destruct x
           end;
    cbn [join fold_right append];
    try reflexivity;
    (rewrite IH by (cbn [String.length] in *; lia)); reflexivity.
Qed.

Lemma join_chars s : join (chars s) = s.
Proof. apply (join_chars_upto (String.length s)). apply Nat.le_refl. Qed.

Lemma normalise_text result_ language :
  is_success (normalise result_ language) ->
  exists s,
    parsed_text_of result_ = Ok (PyStr s) /\
    result_text (normalise result_ language) =
      join (rstrip (lstrip (chars s))).
Proof.
  unfold normalise, parsed_text_of.
  destruct (get result_ "IsErroredOnProcessing" PyNone) as [flag | e];
    [| intros []].
  cbn [bind]. destruct (truthy flag).
  - destruct (get result_ "ErrorMessage" (PyStr "OCR API error")); intros [].
  - destruct (get result_ "ParsedResults" (PyList [])) as [prs | e];
      [| intros []].
    cbn [bind]. destruct (negb (truthy prs)); [intros [] |].
    unfold process_parsed_results.
    destruct (getitem0 prs) as [pr | e]; [| intros []]. cbn [bind].
    destruct (get pr "TextOverlay" (PyDict [])) as [ov | e]; [| intros []].
    cbn [bind].
    destruct (get pr "ParsedText" (PyStr "")) as [pt | e]; [| intros []].
    cbn [bind]. destruct pt as [| b | z | q | s | l | d]; try (intros []).
    cbn [strip bind].
    destruct (get ov "Lines" (PyList [])) as [lf | e]; [| intros []].
    cbn [bind]. destruct (iter lf) as [ls | e]; [| intros []]. cbn [bind].
    destruct (process_lines 0 initial_locals ls) as [st | e]; [| intros []].
    intros _. exists s. split; reflexivity.
Qed.

(** X11.  The text of a successful result is the ParsedText of the
    first parsed result ('' when absent), which is a string, with the
    whitespace at its two ends removed and nothing else: the characters
    of ParsedText are a run of whitespace characters, the characters of
    the text and another run of whitespace characters, and the text
    neither begins nor ends with a whitespace character. *)
Theorem text_is_trimmed (result_ : pyval) (language : string) :
  is_success (normalise result_ language) ->
  exists s pre mid post,
    parsed_text_of result_ = Ok (PyStr s) /\
    chars s = (pre ++ mid ++ post)%list /\
    result_text (normalise result_ language) = join mid /\
    s = join pre ++ result_text (normalise result_ language) ++ join post /\
    all_space pre = true /\ all_space post = true /\
    first_is_space mid = false /\ last_is_space mid = false.
Proof.
  intros Hs. destruct (normalise_text result_ language Hs) as (s & Hpt & ->).
  destruct (lstrip_split (chars s)) as (pre & Hpre & Hpre_space).
  destruct (rstrip_split (lstrip (chars s))) as (post & Hpost & Hpost_space).
  assert (Hchars : chars s = (pre ++ rstrip (lstrip (chars s)) ++ post)%list)
    by (rewrite <- Hpost; exact Hpre).
  exists s, pre, (rstrip (lstrip (chars s))), post.
  split; [exact Hpt |]. split; [exact Hchars |]. split; [reflexivity |].
  split; [rewrite <- !join_app, <- Hchars, join_chars; reflexivity |].
  split; [exact Hpre_space |]. split; [exact Hpost_space |].
  split; [apply rstrip_first; apply lstrip_first | apply rstrip_last].
Qed.

Lemma text_is_trimmed_witness :
  is_success (normalise Examples.unscored "eng") /\
  parsed_text_of Examples.unscored = Ok (PyStr " Hello world ") /\
  result_text (normalise Examples.unscored "eng") = "Hello world" /\
  exists pre post,
    " Hello world " = join pre ++ "Hello world" ++ join post /\
    all_space pre = true /\ all_space post = true.
Proof.
  assert (Hs : is_success (normalise Examples.unscored "eng"))
    by (vm_compute; exact I).
  assert (Ht : result_text (normalise Examples.unscored "eng") = "Hello world")
    by (vm_compute; reflexivity).
  split; [exact Hs | split; [reflexivity | split; [exact Ht |]]].
  destruct (text_is_trimmed Examples.unscored "eng" Hs)
    as (s & pre & mid & post & Hpt & _ & _ & Hsplit & Hpre & Hpost & _).
  change (parsed_text_of Examples.unscored) with (Ok (PyStr " Hello world "))
    in Hpt.
  injection Hpt as Hparsed. rewrite <- Hparsed, Ht in Hsplit.
  exists pre, post. auto.
Defined.

(** Whitespace is Unicode's: a no-break space and an em space are
    removed as well. *)
Lemma unicode_whitespace_is_removed :
  parsed_text_of Examples.padded =
    Ok (PyStr (utf8 [194; 160; 104; 105; 226; 128; 131]%nat)) /\
  result_text (normalise Examples.padded "eng") = "hi".
Proof. split; vm_compute; reflexivity. Qed.

(** ** Answers without overlay, and answers with several results *)

(** X12.  When the first parsed result has no line to visit (no
    TextOverlay, no Lines, or an empty list of lines), a successful
    result has no words, no lines and confidence 0. *)
Theorem no_lines_give_empty_result (result_ : pyval) (language : string) :
  is_success (normalise result_ language) ->
  overlay_lines result_ = Ok [] ->
  result_words (normalise result_ language) = [] /\
  result_lines (normalise result_ language) = [] /\
  result_confidence (normalise result_ language) == 0.
Proof.
  intros Hs Hnone.
  destruct (normalise_overlay_lines result_ language Hs) as (ls & Hls & Hfrom).
  rewrite Hnone in Hls. inversion Hls; subst ls.
  assert (Hlines : result_lines (normalise result_ language) = []).
  { apply length_zero_iff_nil. rewrite <- (Forall2_length Hfrom). reflexivity. }
  assert (Hwords : result_words (normalise result_ language) = []).
  { rewrite result_words_of_lines, Hlines. reflexivity. }
  split; [exact Hwords | split; [exact Hlines |]].
  rewrite (result_confidence_of_words result_ language Hs), Hwords.
  simpl. reflexivity.
Qed.

Lemma no_lines_give_empty_result_witness :
  is_success (normalise Examples.bare_result "eng") /\
  overlay_lines Examples.bare_result = Ok [] /\
  result_words (normalise Examples.bare_result "eng") = [] /\
  result_lines (normalise Examples.bare_result "eng") = [] /\
  result_confidence (normalise Examples.bare_result "eng") == 0.
Proof.
  assert (Hs : is_success (normalise Examples.bare_result "eng"))
    by (vm_compute; exact I).
  split; [exact Hs | split; [reflexivity |]].
  exact (no_lines_give_empty_result Examples.bare_result "eng" Hs Logic.eq_refl).
Defined.

(** X13.  Only the first parsed result counts: two answers with the
    error flag unset whose lists of parsed results begin with the same
    item are normalised to the same result, whatever else the lists and
    the answers hold. *)
Theorem only_first_result_is_used (d d' : list (string * pyval))
    (parsed_result : pyval) (rest rest' : list pyval) (language : string) :
  truthy (errored_flag d) = false ->
  truthy (errored_flag d') = false ->
  lookup "ParsedResults" d = Some (PyList (parsed_result :: rest)) ->
  lookup "ParsedResults" d' = Some (PyList (parsed_result :: rest')) ->
  normalise (PyDict d) language = normalise (PyDict d') language.
Proof.
  intros Hf Hf' Hp Hp'.
  unfold normalise, get. cbn [bind].
  fold (errored_flag d). fold (errored_flag d'). rewrite Hf, Hf', Hp, Hp'.
  reflexivity.
Qed.

Lemma only_first_result_is_used_witness :
  normalise Examples.bare_result "eng" =
  normalise
    (PyDict [("ParsedResults",
              PyList [PyDict [("FileParseExitCode", PyInt 1)]])]) "eng".
Proof.
  unfold Examples.bare_result.
  apply (only_first_result_is_used _ _
           (PyDict [("FileParseExitCode", PyInt 1)])
           [PyDict [("ParsedText", PyStr "ignored")]] []);
    reflexivity.
Defined.

(** ** The provider's own error, end to end *)

(** X14.  When the file is read, is at most 1 MiB long and is
    re-encoded, and the provider's answer has the error flag set, the
    response depends on the kind of its ErrorMessage.  A string (or the
    default "OCR API error" when the field is absent) is returned as the
    error message of a failure response with empty words and lines;
    [null] gives the same response without a message; a list or a dict
    is rejected by the response model and the response is the catch-all
    one, "Internal server error: " followed by the validation error,
    with image_size_bytes = 0. *)
Theorem provider_error_is_passed_on (w : world) (file : Relay.UploadFile)
    (language : string) (calls0 : list request)
    (image_data jpeg : list Byte.byte) (d : list (string * pyval)) :
  Relay.read file = Ok image_data ->
  (Relay.len image_data <= 1024 * 1024)%Z ->
  encode_jpeg w image_data = Ok jpeg ->
  send w (api_request jpeg language) = Ok (PyDict d) ->
  truthy (errored_flag d) = true ->
  exists response,
    Relay.process_ocr w (Some file) language calls0 =
      (Relay.Return response,
       (calls0 ++ [api_request jpeg language])%list) /\
    Relay.success response = false /\
    (forall m, provider_error_message d = PyStr m ->
       Relay.error_message response = Some m /\
       Relay.words response = Some [] /\ Relay.lines response = Some [] /\
       Relay.image_size_bytes response = Relay.len image_data) /\
    (provider_error_message d = PyNone ->
       Relay.error_message response = None /\
       Relay.words response = Some [] /\ Relay.lines response = Some [] /\
       Relay.image_size_bytes response = Relay.len image_data) /\
    ((exists l, provider_error_message d = PyList l) \/
     (exists d', provider_error_message d = PyDict d') ->
       Relay.error_message response =
         Some ("Internal server error: "
               ++ validation_message w (provider_error_message d)) /\
       Relay.words response = None /\ Relay.lines response = None /\
       Relay.image_size_bytes response = 0%Z).
Proof.
  intros Hread Hsize Hjpeg Hsend Hflag. apply Z.ltb_ge in Hsize.
  assert (Hn : normalise (PyDict d) language =
               Ok (Failure (provider_error_message d))).
  { unfold normalise, get. cbn [bind]. fold (errored_flag d).
    rewrite Hflag. reflexivity. }
  unfold Relay.process_ocr, Relay.process_ocr_body.
  rewrite Hread, Hsize. unfold process_ocr_api.
  rewrite Hjpeg, Hsend. cbn [bind]. rewrite Hn. cbn [try_].
  destruct (provider_error_message d) as [| b | z | q | s | l | d'] eqn:Hm;
    cbn [Relay.validate_optional_str bind];
    try (destruct (str_of_number w _));
    (eexists; split; [reflexivity |]; split; [reflexivity |];
     split; [intros m Heq; try discriminate; inversion Heq; subst;
             repeat split; reflexivity |];
     split; [intros Heq; try discriminate; repeat split; reflexivity |];
     intros [[l' Heq] | [d'' Heq]]; try discriminate;
     repeat split; reflexivity).
Qed.

Lemma provider_error_is_passed_on_witness :
  exists response,
    Relay.process_ocr (Examples.world_of (Ok Examples.bad_image))
      (Some Examples.small_upload) "eng" [] =
      (Relay.Return response, [api_request Examples.small_image "eng"]) /\
    Relay.success response = false /\
    Relay.error_message response = Some "Bad image".
Proof.
  assert (Hsize : (Relay.len Examples.small_image <= 1024 * 1024)%Z)
    by (vm_compute; discriminate).
  destruct (provider_error_is_passed_on
              (Examples.world_of (Ok Examples.bad_image))
              Examples.small_upload "eng" [] Examples.small_image
              Examples.small_image
              [("IsErroredOnProcessing", PyBool true);
               ("ErrorMessage", PyStr "Bad image")]
              Logic.eq_refl Hsize Logic.eq_refl Logic.eq_refl Logic.eq_refl)
    as (response & Hresp & Hs & Hstr & _).
  exists response. split; [exact Hresp | split; [exact Hs |]].
  apply (Hstr "Bad image"). reflexivity.
Defined.
